(** * nextjsblog: content fetcher, metrics prober and the two API routes

    A shallow embedding of
      - [src/lib/directus.ts]            ([getAllSlugs], [getPost]),
      - [src/lib/metrics.ts]             ([measurePageMetrics], raising variant),
      - [src/unnamed/part_002]           ([measurePageMetrics], returning variant),
      - [src/app/api/metrics/route.ts]   ([POST], plain variant),
      - [src/unnamed/part_000]           ([POST], same-domain variant),
      - [src/unnamed/part_001]           ([POST] of the revalidation route).

    The code is asynchronous TypeScript whose only effects are reading the
    clock, writing to the console, issuing [fetch] requests and asking the
    platform to revalidate a path.  These are threaded through a state
    monad with exceptions; the platform itself (clock, network, URL parser,
    ISO date printer, [revalidatePath]) is an oracle record [World]. *)

From Stdlib Require Import ZArith NArith String Ascii List Bool Lia.
From Stdlib Require Import DecimalString.
Import ListNotations.
Open Scope string_scope.
Open Scope list_scope.
Open Scope Z_scope.

Set Implicit Arguments.
Set Warnings "-register-all".

(** ** JavaScript strings

    A JS string is a sequence of UTF-16 code units; [substring], [length]
    and the regular expression class [\s] all work on code units. *)

Definition code_unit := N.
Definition jsstring := list code_unit.

Fixpoint lit (s : string) : jsstring :=
  match s with
  | EmptyString => []
  | String c r => N_of_ascii c :: lit r
  end.

Definition jsstring_eq_dec : forall a b : jsstring, {a = b} + {a <> b} :=
  list_eq_dec N.eq_dec.

Definition jsstring_eqb (a b : jsstring) : bool :=
  if jsstring_eq_dec a b then true else false.

(** The one-character string holding a double quote. *)
Definition dquote : jsstring := [34%N].

(** [s.startsWith(p)] *)
Fixpoint startsWith (p s : jsstring) : bool :=
  match p, s with
  | [], _ => true
  | _ :: _, [] => false
  | a :: p', b :: s' => N.eqb a b && startsWith p' s'
  end.

(** Number-to-string conversion of an integral JS number (decimal digits,
    a leading minus sign for negatives). *)
Definition dec (z : Z) : jsstring :=
  lit (NilZero.string_of_int (Z.to_int z)).

(** ** JavaScript values

    The values that [JSON.parse] can produce, plus [undefined].  Numbers
    are kept integral: the code only tests them for zero and prints them.
    A number with a fraction, or one of magnitude 10^21 and more (which
    JavaScript prints with an exponent), has no counterpart here.
    An object is the list of its own properties in insertion order. *)

Inductive JsValue : Type :=
| JUndefined
| JNull
| JBool (b : bool)
| JNumber (z : Z)
| JString (s : jsstring)
| JArray (items : list JsValue)
| JObject (fields : list (jsstring * JsValue)).

(** Truthiness, as used by [!x], [x || y], [x && y] and [x ? a : b]. *)
Definition truthy (v : JsValue) : bool :=
  match v with
  | JUndefined | JNull => false
  | JBool b => b
  | JNumber z => negb (z =? 0)
  | JString s => match s with [] => false | _ => true end
  | JArray _ | JObject _ => true
  end.

Definition str_truthy (s : jsstring) : bool :=
  match s with [] => false | _ => true end.

Fixpoint assoc {A : Type} (k : jsstring) (l : list (jsstring * A)) : option A :=
  match l with
  | [] => None
  | (k', v) :: r => if jsstring_eqb k' k then Some v else assoc k r
  end.

(** [obj[key] = value] on a plain object: overwrite in place, or append. *)
Fixpoint set_prop {A : Type} (k : jsstring) (v : A) (l : list (jsstring * A))
  : list (jsstring * A) :=
  match l with
  | [] => [(k, v)]
  | (k', v') :: r =>
      if jsstring_eqb k' k then (k, v) :: r else (k', v') :: set_prop k v r
  end.

(** The string that a template literal [`${v}`], the [URL] constructor
    and [fetch] make of [v], where the conversion yields one
    ([has_conversion] below).  An integer prints in decimal, which is
    JavaScript's text for it below 10^21 in magnitude. *)
Fixpoint js_ToString (v : JsValue) : jsstring :=
  match v with
  | JUndefined => lit "undefined"
  | JNull => lit "null"
  | JBool true => lit "true"
  | JBool false => lit "false"
  | JNumber z => dec z
  | JString s => s
  | JArray items =>
      (fix join (l : list JsValue) : jsstring :=
         match l with
         | [] => []
         | x :: r =>
             let e := match x with
                      | JUndefined | JNull => []
                      | _ => js_ToString x
                      end in
             match r with
             | [] => e
             | _ :: _ => e ++ lit "," ++ join r
             end
         end) items
  | JObject _ => lit "[object Object]"
  end.

(** Whether the conversion yields a string at all.  For a JSON object
    [Object.prototype.toString] answers, unless an own [toString] key hides
    it: the value under that key is never a function, [valueOf] hands the
    object back, and the conversion throws.  An array joins the conversions
    of its items, [null] and [undefined] counting as empty. *)
Fixpoint has_conversion (v : JsValue) : bool :=
  match v with
  | JArray items =>
      (fix all (l : list JsValue) : bool :=
         match l with
         | [] => true
         | x :: r =>
             match x with
             | JUndefined | JNull => true
             | _ => has_conversion x
             end && all r
         end) items
  | JObject fields =>
      match assoc (lit "toString") fields with
      | Some _ => false
      | None => true
      end
  | _ => true
  end.

(** ** Thrown values and completions *)

Inductive Thrown : Type :=
| ErrorObj (message : jsstring)      (* [e instanceof Error], with [e.message] *)
| NonError (v : JsValue).            (* any other thrown value *)

(** [error instanceof Error ? error.message : 'Unknown error'] *)
Definition error_message (e : Thrown) : jsstring :=
  match e with
  | ErrorObj m => m
  | NonError _ => lit "Unknown error"
  end.

(** The engine's [TypeError]; its message text is engine specific. *)
Definition TypeError (what : string) : Thrown := ErrorObj (lit what).

Inductive Result (A : Type) : Type :=
| Ok (a : A)
| Throw (e : Thrown).
Arguments Ok {A} a.
Arguments Throw {A} e.

(** The abstract operation [ToString], which a template literal applies to
    each substitution. *)
Definition ToString (v : JsValue) : Result jsstring :=
  if has_conversion v then Ok (js_ToString v)
  else Throw (TypeError "Cannot convert object to primitive value").

(** Property read [v.key] for the keys this code base reads ([data],
    [slug], [secret], [url]): none of them is an inherited property of a
    JSON value, so only own properties of objects answer. *)
Definition get_prop (v : JsValue) (key : string) : Result JsValue :=
  match v with
  | JUndefined | JNull => Throw (TypeError "Cannot read properties of null or undefined")
  | JObject fields =>
      Ok (match assoc (lit key) fields with Some x => x | None => JUndefined end)
  | _ => Ok JUndefined
  end.

(** Element read [v[0]] on a value that is neither [null] nor [undefined]. *)
Definition get_index0 (v : JsValue) : JsValue :=
  match v with
  | JArray (x :: _) => x
  | JString (c :: _) => JString [c]
  | JObject fields =>
      match assoc (lit "0") fields with Some x => x | None => JUndefined end
  | _ => JUndefined
  end.

(** ** Requests, responses and the platform *)

(** [RequestInit['cache']] (lib.dom.d.ts [RequestCache]). *)
Inductive RequestCache : Type :=
| cache_default | cache_force_cache | cache_no_cache
| cache_no_store | cache_only_if_cached | cache_reload.

Definition RequestCache_text (c : RequestCache) : jsstring :=
  match c with
  | cache_default => lit "default"
  | cache_force_cache => lit "force-cache"
  | cache_no_cache => lit "no-cache"
  | cache_no_store => lit "no-store"
  | cache_only_if_cached => lit "only-if-cached"
  | cache_reload => lit "reload"
  end.

(** [revalidate?: number | false] *)
Inductive Revalidate : Type :=
| revalidate_seconds (n : Z)
| revalidate_false.

(** [{ revalidate?: number | false; tags?: string[] }] *)
Record NextConfig : Type := {
  revalidate : option Revalidate;
  tags : option (list jsstring)
}.

(** The second parameter of [getPost]:
    [RequestInit['cache'] | { next?: NextConfig }], or omitted.
    For the object form [next_key] is [None] when the key [next] is not in
    the object, [Some None] when it is there with value [undefined]. *)
Inductive CacheOptions : Type :=
| CacheString (mode : RequestCache)
| CacheObject (next_key : option (option NextConfig)).

(** [cacheOptions.next] *)
Definition CacheObject_next (k : option (option NextConfig)) : option NextConfig :=
  match k with
  | Some v => v
  | None => None
  end.

(** What reaches [fetch(url, init)]. *)
Record Request : Type := {
  req_url : jsstring;
  req_headers : list (jsstring * jsstring);
  req_cache : option RequestCache;
  req_next : option NextConfig;
  req_redirect : option jsstring
}.

Record Response : Type := {
  resp_status : Z;
  resp_statusText : jsstring;
  resp_headers : list (jsstring * jsstring);  (* as [headers.forEach] visits them *)
  resp_text : Result jsstring;                (* [await response.text()] *)
  resp_json : Result JsValue                  (* [await response.json()] *)
}.

(** [response.ok] *)
Definition resp_ok (r : Response) : bool :=
  (200 <=? resp_status r) && (resp_status r <=? 299).

(** The parts of a parsed [URL] the code reads. *)
Record URLRecord : Type := {
  url_host : jsstring;
  url_pathname : jsstring;
  url_search : jsstring
}.

Record World : Type := {
  clock : nat -> Z;                           (* the n-th reading of the clock *)
  network : Request -> Result Response;       (* [await fetch(...)] *)
  toISOString : Z -> jsstring;                (* [Date.prototype.toISOString] *)
  URL_parse : jsstring -> option URLRecord;   (* [new URL(s)]; [None]: it throws *)
  revalidatePath_outcome : jsstring -> option Thrown  (* [Some e]: it throws [e] *)
}.

(** [process.env] *)
Record Env : Type := {
  env_DIRECTUS_URL : option jsstring;
  env_DIRECTUS_TOKEN : option jsstring;
  env_VERCEL_URL : option jsstring
}.

(** [process.env.X || fallback] *)
Definition env_or (x : option jsstring) (fallback : jsstring) : jsstring :=
  match x with
  | Some (c :: r) => c :: r
  | _ => fallback
  end.

Inductive LogLevel : Type := level_log | level_error.

Inductive LogArg : Type :=
| LStr (s : jsstring)
| LThrown (e : Thrown).

Record State : Type := {
  ticks : nat;                                (* clock readings taken so far *)
  console : list (LogLevel * list LogArg);
  requests : list Request;                    (* [fetch] calls issued so far *)
  revalidated : list jsstring                 (* [revalidatePath] calls so far *)
}.

(** ** The effect monad: state that survives a [throw] *)

Definition M (A : Type) : Type := State -> Result A * State.

Definition ret {A} (a : A) : M A := fun s => (Ok a, s).

Definition throw {A} (e : Thrown) : M A := fun s => (Throw e, s).

Definition bind {A B} (c : M A) (k : A -> M B) : M B :=
  fun s =>
    match c s with
    | (Ok a, s') => k a s'
    | (Throw e, s') => (Throw e, s')
    end.

(** [try { body } catch (e) { handler }] *)
Definition try_catch {A} (body : M A) (handler : Thrown -> M A) : M A :=
  fun s =>
    match body s with
    | (Ok a, s') => (Ok a, s')
    | (Throw e, s') => handler e s'
    end.

Definition lift {A} (r : Result A) : M A := fun s => (r, s).

Declare Scope js_scope.
Delimit Scope js_scope with js.
Notation "x <- c ;; k" := (bind c (fun x => k))
  (at level 61, c at next level, right associativity) : js_scope.
Notation "c ;; k" := (bind c (fun _ => k))
  (at level 61, right associativity) : js_scope.
Open Scope js_scope.

Section Platform.
Variable w : World.

(** [Date.now()]; also the reading behind [new Date()]. *)
Definition Date_now : M Z :=
  fun s =>
    (Ok (clock w (ticks s)),
     {| ticks := S (ticks s); console := console s;
        requests := requests s; revalidated := revalidated s |}).

(** [new Date().toISOString()] *)
Definition Date_toISOString : M jsstring :=
  t <- Date_now ;; ret (toISOString w t).

Definition console_write (lvl : LogLevel) (args : list LogArg) : M unit :=
  fun s =>
    (Ok tt,
     {| ticks := ticks s; console := console s ++ [(lvl, args)];
        requests := requests s; revalidated := revalidated s |}).

Definition console_log := console_write level_log.
Definition console_error := console_write level_error.

(** [await fetch(url, init)] *)
Definition fetch (rq : Request) : M Response :=
  fun s =>
    (network w rq,
     {| ticks := ticks s; console := console s;
        requests := requests s ++ [rq]; revalidated := revalidated s |}).

(** [revalidatePath(path)] *)
Definition revalidatePath (path : jsstring) : M unit :=
  fun s =>
    (match revalidatePath_outcome w path with
     | Some e => Throw e
     | None => Ok tt
     end,
     {| ticks := ticks s; console := console s;
        requests := requests s; revalidated := revalidated s ++ [path] |}).

(** [new URL(v)] *)
Definition new_URL (v : JsValue) : M URLRecord :=
  match URL_parse w (js_ToString v) with
  | Some u => ret u
  | None => throw (TypeError "Invalid URL")
  end.
End Platform.

(** ** src/lib/directus.ts *)

Module Directus.
Section Directus.
Variable env : Env.
Variable w : World.

Definition DIRECTUS_URL : jsstring :=
  env_or (env_DIRECTUS_URL env) (lit "https://api.microheal.in").

Definition DIRECTUS_TOKEN : jsstring :=
  env_or (env_DIRECTUS_TOKEN env) [].

(** The [headers] object both functions build. *)
Definition directus_headers : list (jsstring * jsstring) :=
  let headers := [(lit "Content-Type", lit "application/json")] in
  if str_truthy DIRECTUS_TOKEN
  then set_prop (lit "Authorization") (lit "Bearer " ++ DIRECTUS_TOKEN) headers
  else headers.

(** [items.map((post) => post.slug)] *)
Fixpoint map_slug (items : list JsValue) : Result (list JsValue) :=
  match items with
  | [] => Ok []
  | post :: rest =>
      match get_prop post "slug" with
      | Throw e => Throw e
      | Ok v =>
          match map_slug rest with
          | Throw e => Throw e
          | Ok vs => Ok (v :: vs)
          end
      end
  end.

(** [d?.map((post) => post.slug) || []] *)
Definition optional_map_slug (d : JsValue) : Result (list JsValue) :=
  match d with
  | JUndefined | JNull => Ok []
  | JArray items => map_slug items
  | _ => Throw (TypeError "data.data.map is not a function")
  end.

Definition getAllSlugs_request : Request :=
  {| req_url := DIRECTUS_URL ++ lit "/items/blogs?fields=slug";
     req_headers := directus_headers;
     req_cache := Some cache_no_store;
     req_next := None;
     req_redirect := None |}.

Definition getAllSlugs : M (list JsValue) :=
  try_catch
    (response <- fetch w getAllSlugs_request ;;
     if negb (resp_ok response) then
       console_error [LStr (lit "Failed to fetch slugs from Directus:");
                      LStr (resp_statusText response)] ;;
       ret []
     else
       data <- lift (resp_json response) ;;
       d <- lift (get_prop data "data") ;;
       lift (optional_map_slug d))
    (fun error =>
       console_error [LStr (lit "Error fetching slugs from Directus:");
                      LThrown error] ;;
       ret []).

(** The request URL of [getPost]: the slug goes into the template as is. *)
Definition getPost_url (slug : jsstring) : jsstring :=
  DIRECTUS_URL ++ lit "/items/blogs?filter[slug][_eq]=" ++ slug
    ++ lit "&fields=slug,title,content,date_created,date_updated".

(** [fetchOptions] after "Apply cache options". *)
Definition getPost_request (slug : jsstring) (cacheOptions : option CacheOptions)
  : Request :=
  let fetchOptions :=
    {| req_url := getPost_url slug;
       req_headers := directus_headers;
       req_cache := None;
       req_next := None;
       req_redirect := None |} in
  match cacheOptions with
  | None => fetchOptions
  | Some (CacheString mode) =>
      {| req_url := req_url fetchOptions;
         req_headers := req_headers fetchOptions;
         req_cache := Some mode;
         req_next := req_next fetchOptions;
         req_redirect := req_redirect fetchOptions |}
  | Some (CacheObject next_key) =>
      match next_key with
      | Some _ =>
          {| req_url := req_url fetchOptions;
             req_headers := req_headers fetchOptions;
             req_cache := req_cache fetchOptions;
             req_next := CacheObject_next next_key;
             req_redirect := req_redirect fetchOptions |}
      | None => fetchOptions
      end
  end.

(** [data.data?.[0]] *)
Definition optional_index0 (d : JsValue) : JsValue :=
  match d with
  | JUndefined | JNull => JUndefined
  | _ => get_index0 d
  end.

Definition getPost (slug : jsstring) (cacheOptions : option CacheOptions)
  : M JsValue :=
  startTime <- Date_now w ;;
  try_catch
    (response <- fetch w (getPost_request slug cacheOptions) ;;
     now1 <- Date_now w ;;
     let fetchTime := now1 - startTime in
     console_log [LStr (lit "[Directus] Fetched post " ++ dquote ++ slug ++ dquote ++ lit " in "
                          ++ dec fetchTime ++ lit "ms")] ;;
     if negb (resp_ok response) then
       console_error [LStr (lit "Failed to fetch post " ++ dquote ++ slug ++ dquote
                              ++ lit " from Directus:");
                      LStr (resp_statusText response)] ;;
       ret JNull
     else
       data <- lift (resp_json response) ;;
       d <- lift (get_prop data "data") ;;
       let post := optional_index0 d in
       if negb (truthy post) then
         console_log [LStr (lit "Post " ++ dquote ++ slug ++ dquote
                            ++ lit " not found in Directus")] ;;
         ret JNull
       else ret post)
    (fun error =>
       now2 <- Date_now w ;;
       let fetchTime := now2 - startTime in
       console_error [LStr (lit "Error fetching post " ++ dquote ++ slug ++ dquote
                              ++ lit " from Directus (" ++ dec fetchTime
                              ++ lit "ms):");
                      LThrown error] ;;
       ret JNull).

(** [isDirectusConfigured] *)
Definition isDirectusConfigured : bool :=
  str_truthy DIRECTUS_URL && negb (jsstring_eqb DIRECTUS_URL []).
End Directus.
End Directus.

(** ** String helpers of the metrics prober *)

(** The code units matched by [\s] and stripped by [trim()]:
    ECMAScript WhiteSpace and LineTerminator. *)
Definition is_whitespace (c : code_unit) : bool :=
  ((9 <=? c) && (c <=? 13) || (c =? 32) || (c =? 160) || (c =? 5760)
   || (8192 <=? c) && (c <=? 8202) || (c =? 8232) || (c =? 8233)
   || (c =? 8239) || (c =? 8287) || (c =? 12288) || (c =? 65279))%N.

Definition space : code_unit := 32%N.

(** [s.substring(0, n)] *)
Definition substring0 (n : nat) (s : jsstring) : jsstring := firstn n s.

(** [s.replace(/\s+/g, ' ')]: every maximal run of whitespace becomes one
    space.  [in_run] tells that the previous code unit was whitespace. *)
Fixpoint collapse_from (in_run : bool) (s : jsstring) : jsstring :=
  match s with
  | [] => []
  | c :: r =>
      if is_whitespace c
      then (if in_run then collapse_from true r else space :: collapse_from true r)
      else c :: collapse_from false r
  end.

Definition replace_whitespace_runs (s : jsstring) : jsstring :=
  collapse_from false s.

Fixpoint trimStart (s : jsstring) : jsstring :=
  match s with
  | [] => []
  | c :: r => if is_whitespace c then trimStart r else s
  end.

Definition trimEnd (s : jsstring) : jsstring := rev (trimStart (rev s)).

(** [s.trim()] *)
Definition trim (s : jsstring) : jsstring := trimEnd (trimStart s).

(** [html.substring(0, 300).replace(/\s+/g, ' ').trim()] *)
Definition htmlPreview_of (html : jsstring) : jsstring :=
  trim (replace_whitespace_runs (substring0 300 html)).

Definition is_high_surrogate (c : code_unit) : bool :=
  ((55296 <=? c) && (c <=? 56319))%N.
Definition is_low_surrogate (c : code_unit) : bool :=
  ((56320 <=? c) && (c <=? 57343))%N.

(** [new Blob([html]).size]: the length of the UTF-8 encoding.  A
    surrogate pair is one four-byte scalar; a lone surrogate is encoded
    as U+FFFD, three bytes. *)
Fixpoint Blob_size (s : jsstring) : Z :=
  match s with
  | [] => 0
  | c :: r =>
      if (c <? 128)%N then 1 + Blob_size r
      else if (c <? 2048)%N then 2 + Blob_size r
      else if is_high_surrogate c then
        match r with
        | d :: r' => if is_low_surrogate d then 4 + Blob_size r'
                     else 3 + Blob_size r
        | [] => 3
        end
      else 3 + Blob_size r
  end.

(** [(htmlSize / 1024).toFixed(2)] for a non-negative integer size: the
    quotient is exact in binary floating point, and [toFixed] rounds its
    exact value to the nearest hundredth, ties upwards. *)
Definition toFixed2_div1024 (n : Z) : jsstring :=
  let hundredths := (200 * n + 1024) / 2048 in
  let frac := hundredths mod 100 in
  dec (hundredths / 100) ++ lit "." ++ dec (frac / 10) ++ dec (frac mod 10).

(** [headers[key] = value] on the object literal [{}], with a string
    [value]: the name [__proto__] reaches the accessor inherited from
    [Object.prototype], whose setter ignores a string, so no property is
    created; any other name becomes an own property. *)
Definition assign_header (key value : jsstring)
    (headers : list (jsstring * jsstring)) : list (jsstring * jsstring) :=
  if jsstring_eqb key (lit "__proto__") then headers
  else set_prop key value headers.

(** [response.headers.forEach((value, key) => { headers[key] = value })] *)
Definition collect_headers (hs : list (jsstring * jsstring))
  : list (jsstring * jsstring) :=
  fold_left (fun acc kv => assign_header (fst kv) (snd kv) acc) hs [].

(** [interface MetricsResult]; [error] is the optional field of the
    returning variant and stays [None] where the object has no such key. *)
Record MetricsResult : Type := {
  url : JsValue;
  status : Z;
  statusText : jsstring;
  ttfb : Z;
  totalTime : Z;
  htmlSize : Z;
  htmlSizeKB : jsstring;
  headers : list (jsstring * jsstring);
  htmlPreview : jsstring;
  timestamp : jsstring;
  error : option jsstring
}.

(** The request both variants of the prober send to [target]. *)
Definition metrics_request (target : jsstring) : Request :=
  {| req_url := target;
     req_headers :=
       [(lit "User-Agent", lit "Next.js Metrics Lab");
        (lit "Accept",
         lit "text/html,application/xhtml+xml,application/xml;q=0.9,*/*;q=0.8")];
     req_cache := Some cache_no_store;
     req_next := None;
     req_redirect := Some (lit "follow") |}.

(** [ttfbTime || totalTime] *)
Definition ttfb_or (ttfbTime totalTime : Z) : Z :=
  if ttfbTime =? 0 then totalTime else ttfbTime.

(** Run [c] and hand its completion over as a value.  A [try] block that
    assigns a local variable read by its [catch] clause is split at the
    assignment with [attempt], so that the handler gets the value the
    variable has when the exception arrives. *)
Definition attempt {A} (c : M A) : M (Result A) :=
  fun s => let (r, s') := c s in (Ok r, s').

(** The success object both variants build once the body has arrived
    ([with_error] is the returning variant's extra [error] key). *)
Definition success_result (w : World) (url : JsValue) (response : Response)
    (ttfbTime totalTime : Z) (html : jsstring) (with_error : bool)
  : M MetricsResult :=
  let htmlSize := Blob_size html in
  let htmlSizeKB := toFixed2_div1024 htmlSize in
  let headers := collect_headers (resp_headers response) in
  let htmlPreview := htmlPreview_of html in
  ts <- Date_toISOString w ;;
  ret {| url := url;
         status := resp_status response;
         statusText := resp_statusText response;
         ttfb := ttfbTime;
         totalTime := totalTime;
         htmlSize := htmlSize;
         htmlSizeKB := htmlSizeKB;
         headers := headers;
         htmlPreview := htmlPreview;
         timestamp := ts;
         error :=
           if with_error && (400 <=? resp_status response)
           then Some (lit "HTTP " ++ dec (resp_status response) ++ lit ": "
                        ++ resp_statusText response)
           else None |}.

(** ** src/lib/metrics.ts: the variant whose [catch] clause throws *)

Module SrcLibMetrics.
Section SrcLibMetrics.
Variable w : World.

(** The object literal after [throw]. *)
Definition failure_object (url : JsValue) (ttfbTime totalTime : Z)
    (error : Thrown) (ts : jsstring) : JsValue :=
  JObject [(lit "url", url);
           (lit "status", JNumber 0);
           (lit "statusText", JString (lit "Fetch Failed"));
           (lit "ttfb", JNumber (ttfb_or ttfbTime totalTime));
           (lit "totalTime", JNumber totalTime);
           (lit "error", JString (error_message error));
           (lit "timestamp", JString ts)].

Definition on_error (url : JsValue) (startTime ttfbTime : Z) (error : Thrown)
  : M MetricsResult :=
  now <- Date_now w ;;
  let totalTime := now - startTime in
  ts <- Date_toISOString w ;;
  throw (NonError (failure_object url ttfbTime totalTime error ts)).

Definition measurePageMetrics (url : JsValue) : M MetricsResult :=
  startTime <- Date_now w ;;
  first <- attempt
    (response <- fetch w (metrics_request (js_ToString url)) ;;
     now <- Date_now w ;;
     ret (response, now - startTime)) ;;
  match first with
  | Throw error => on_error url startTime 0 error
  | Ok (response, ttfbTime) =>
      try_catch
        (html <- lift (resp_text response) ;;
         now <- Date_now w ;;
         let totalTime := now - startTime in
         success_result w url response ttfbTime totalTime html false)
        (on_error url startTime ttfbTime)
  end.
End SrcLibMetrics.
End SrcLibMetrics.

(** ** src/unnamed/part_002: the variant whose [catch] clause returns *)

Module Part002.
Section Part002.
Variable env : Env.
Variable w : World.

Definition on_error (url : JsValue) (startTime ttfbTime : Z) (error : Thrown)
  : M MetricsResult :=
  now <- Date_now w ;;
  let totalTime := now - startTime in
  ts <- Date_toISOString w ;;
  ret {| url := url;
         status := 0;
         statusText := lit "Fetch Failed";
         ttfb := ttfb_or ttfbTime totalTime;
         totalTime := totalTime;
         htmlSize := 0;
         htmlSizeKB := lit "0.00";
         headers := [];
         htmlPreview := [];
         timestamp := ts;
         error := Some (error_message error) |}.

(** [url.startsWith('/')]: only a string has the method. *)
Definition url_startsWith_slash (url : JsValue) : Result (bool * jsstring) :=
  match url with
  | JString s => Ok (startsWith (lit "/") s, s)
  | JUndefined | JNull =>
      Throw (TypeError "Cannot read properties of null or undefined")
  | _ => Throw (TypeError "url.startsWith is not a function")
  end.

(** The origin a site-relative URL is resolved against. *)
Definition own_origin : jsstring :=
  match env_VERCEL_URL env with
  | Some (c :: r) => lit "https://" ++ c :: r
  | _ => lit "http://localhost:3000"
  end.

Definition fetchUrl_of (isRelative : bool) (url : jsstring) : jsstring :=
  if isRelative then own_origin ++ url else url.

Definition measurePageMetrics (url : JsValue) : M MetricsResult :=
  startTime <- Date_now w ;;
  first <- attempt
    (rel <- lift (url_startsWith_slash url) ;;
     let fetchUrl := fetchUrl_of (fst rel) (snd rel) in
     console_log [LStr (lit "[Metrics] Fetching: " ++ fetchUrl
                          ++ lit " (original: " ++ js_ToString url ++ lit ")")] ;;
     response <- fetch w (metrics_request fetchUrl) ;;
     now <- Date_now w ;;
     ret (response, now - startTime)) ;;
  match first with
  | Throw error => on_error url startTime 0 error
  | Ok (response, ttfbTime) =>
      try_catch
        (html <- lift (resp_text response) ;;
         now <- Date_now w ;;
         let totalTime := now - startTime in
         success_result w url response ttfbTime totalTime html true)
        (on_error url startTime ttfbTime)
  end.
End Part002.
End Part002.

(** ** The route handlers *)

(** What a handler reads from its [NextRequest]. *)
Record NextRequest : Type := {
  request_json : Result JsValue;       (* [await request.json()] *)
  request_host : option jsstring       (* [request.headers.get('host')] *)
}.

(** [NextResponse.json(body, { status })]; the status defaults to 200. *)
Record HttpResponse : Type := {
  http_status : Z;
  http_body : JsValue
}.

Definition NextResponse_json (body : JsValue) (status : option Z) : HttpResponse :=
  {| http_status := match status with Some c => c | None => 200 end;
     http_body := body |}.

Definition headers_to_json (hs : list (jsstring * jsstring)) : JsValue :=
  JObject (map (fun kv => (fst kv, JString (snd kv))) hs).

(** A [MetricsResult] as serialised by [NextResponse.json]: a key whose
    value is [undefined] is left out. *)
Definition metrics_to_json (m : MetricsResult) : JsValue :=
  JObject
    ([(lit "url", url m);
      (lit "status", JNumber (status m));
      (lit "statusText", JString (statusText m));
      (lit "ttfb", JNumber (ttfb m));
      (lit "totalTime", JNumber (totalTime m));
      (lit "htmlSize", JNumber (htmlSize m));
      (lit "htmlSizeKB", JString (htmlSizeKB m));
      (lit "headers", headers_to_json (headers m));
      (lit "htmlPreview", JString (htmlPreview m));
      (lit "timestamp", JString (timestamp m))]
     ++ match error m with
        | Some e => [(lit "error", JString e)]
        | None => []
        end).

Definition missing_url_response : HttpResponse :=
  NextResponse_json
    (JObject [(lit "error", JString (lit "Missing required field: url"))])
    (Some 400).

Definition invalid_url_response : HttpResponse :=
  NextResponse_json
    (JObject [(lit "error", JString (lit "Invalid URL format"))])
    (Some 400).

Definition metrics_failure_response (error : Thrown) : HttpResponse :=
  NextResponse_json
    (JObject [(lit "error", JString (lit "Failed to measure metrics"));
              (lit "message", JString (error_message error))])
    (Some 500).

(** *** src/app/api/metrics/route.ts *)

Module SrcApiMetricsRoute.
Section SrcApiMetricsRoute.
Variable w : World.
(** [import { measurePageMetrics } from '@/lib/metrics'] *)
Variable measurePageMetrics : JsValue -> M MetricsResult.

Definition POST (request : NextRequest) : M HttpResponse :=
  try_catch
    (body <- lift (request_json request) ;;
     url <- lift (get_prop body "url") ;;
     if negb (truthy url) then ret missing_url_response
     else
       validated <- attempt (new_URL w url) ;;
       match validated with
       | Throw _ => ret invalid_url_response
       | Ok _ =>
           console_log [LStr (lit "[Metrics] Testing URL: " ++ js_ToString url)] ;;
           metrics <- measurePageMetrics url ;;
           ret (NextResponse_json (metrics_to_json metrics) None)
       end)
    (fun error =>
       console_error [LStr (lit "[Metrics] Error:"); LThrown error] ;;
       ret (metrics_failure_response error)).
End SrcApiMetricsRoute.
End SrcApiMetricsRoute.

(** *** src/unnamed/part_000: the same route with same-domain rewriting *)

Module Part000.
Section Part000.
Variable w : World.
Variable measurePageMetrics : JsValue -> M MetricsResult.

(** [requestHost && urlHost === requestHost] *)
Definition same_host (requestHost : option jsstring) (urlHost : jsstring) : bool :=
  match requestHost with
  | Some (c :: r) => jsstring_eqb urlHost (c :: r)
  | _ => false
  end.

(** The block that computes [testUrl]. *)
Definition testUrl_of (request : NextRequest) (url : JsValue) : M JsValue :=
  parsed <- attempt (new_URL w url) ;;
  match parsed with
  | Ok urlObj =>
      if same_host (request_host request) (url_host urlObj) then
        let testUrl := url_pathname urlObj ++ url_search urlObj in
        console_log [LStr (lit "[Metrics] Same-domain detected, using relative path: "
                             ++ testUrl)] ;;
        ret (JString testUrl)
      else ret url
  | Throw e =>
      console_log [LStr (lit "[Metrics] URL parsing issue:"); LThrown e] ;;
      ret url
  end.

Definition POST (request : NextRequest) : M HttpResponse :=
  try_catch
    (body <- lift (request_json request) ;;
     url <- lift (get_prop body "url") ;;
     if negb (truthy url) then ret missing_url_response
     else
       validated <- attempt (new_URL w url) ;;
       match validated with
       | Throw _ => ret invalid_url_response
       | Ok _ =>
           console_log [LStr (lit "[Metrics] Testing URL: " ++ js_ToString url)] ;;
           testUrl <- testUrl_of request url ;;
           metrics <- measurePageMetrics testUrl ;;
           ret (NextResponse_json (metrics_to_json metrics) None)
       end)
    (fun error =>
       console_error [LStr (lit "[Metrics] Error:"); LThrown error] ;;
       ret (metrics_failure_response error)).
End Part000.
End Part000.

(** *** src/unnamed/part_001: the revalidation route *)

Module Part001.
Section Part001.
Variable w : World.

Definition isr_path (slug : JsValue) : jsstring :=
  lit "/blog/isr/" ++ js_ToString slug.

Definition isr_ondemand_path (slug : JsValue) : jsstring :=
  lit "/blog/isr-ondemand/" ++ js_ToString slug.

Definition missing_slug_response : HttpResponse :=
  NextResponse_json
    (JObject [(lit "error", JString (lit "Missing required field: slug"))])
    (Some 400).

Definition success_response (slug : JsValue) (ts : jsstring) : HttpResponse :=
  NextResponse_json
    (JObject [(lit "success", JBool true);
              (lit "message", JString (lit "Revalidation triggered successfully"));
              (lit "slug", slug);
              (lit "revalidated",
               JArray [JString (isr_path slug);
                       JString (isr_ondemand_path slug)]);
              (lit "timestamp", JString ts)])
    None.

Definition failure_response (error : Thrown) : HttpResponse :=
  NextResponse_json
    (JObject [(lit "error", JString (lit "Failed to revalidate"));
              (lit "message", JString (error_message error))])
    (Some 500).

Definition POST (request : NextRequest) : M HttpResponse :=
  try_catch
    (body <- lift (request_json request) ;;
     slug <- lift (get_prop body "slug") ;;
     secret <- lift (get_prop body "secret") ;;
     (* the check of [secret] against REVALIDATION_SECRET is commented out *)
     if negb (truthy slug) then ret missing_slug_response
     else
       (* each template literal below converts [slug]; the first one throws
          when [slug] has no conversion, and then they all yield the same
          string *)
       lift (ToString slug) ;;
       console_log [LStr (lit "[Revalidation] Triggered for slug: "
                            ++ js_ToString slug)] ;;
       revalidatePath w (isr_path slug) ;;
       revalidatePath w (isr_ondemand_path slug) ;;
       console_log [LStr (lit "[Revalidation] Completed for slug: "
                            ++ js_ToString slug)] ;;
       ts <- Date_toISOString w ;;
       ret (success_response slug ts))
    (fun error =>
       console_error [LStr (lit "[Revalidation] Error:"); LThrown error] ;;
       ret (failure_response error)).
End Part001.
End Part001.

(** ** Render timestamps: [formatTimestamp], [getServerTimestamp]
    (src/lib/metrics.ts and src/unnamed/part_002, same text in both) *)

Definition letter_T : code_unit := 84%N.

(** [s.replace(pattern, replacement)] with one-character strings: a string
    pattern replaces the first occurrence only. *)
Fixpoint replace_first (pattern replacement : code_unit) (s : jsstring)
  : jsstring :=
  match s with
  | [] => []
  | c :: r =>
      if (c =? pattern)%N then replacement :: r
      else c :: replace_first pattern replacement r
  end.

(** [iso.replace('T', ' ').substring(0, 19)] *)
Definition format_iso (iso : jsstring) : jsstring :=
  substring0 19 (replace_first letter_T space iso).

Section Timestamps.
Variable w : World.

(** [formatTimestamp(date = new Date())]; the argument is the time value
    of [date], [None] when the parameter is omitted. *)
Definition formatTimestamp (date : option Z) : M jsstring :=
  t <- match date with
       | Some t => ret t
       | None => Date_now w
       end ;;
  ret (format_iso (toISOString w t)).

Definition getServerTimestamp : M jsstring := formatTimestamp None.
End Timestamps.

(** ** The server-rendered blog pages
    (src/app/blog/ssr, ssg, isr, isr-ondemand: [slug]/page.tsx) *)

(** What [notFound()] throws (the framework's not-found signal). *)
Definition NEXT_NOT_FOUND : Thrown :=
  ErrorObj (lit "NEXT_HTTP_ERROR_FALLBACK;404").

Definition notFound {A} : M A := throw NEXT_NOT_FOUND.

(** The values the markup a page returns is built from: the post (its
    [title], [date_updated] and [content] are read by the markup) and the
    render timestamp. *)
Record PageView : Type := {
  view_post : JsValue;
  view_renderTime : jsstring
}.

Section Pages.
Variable env : Env.
Variable w : World.

(** The body shared by the three [generateStaticParams]; they differ in
    the tag of the log line. *)
Definition generateStaticParams_tagged (tag : string) : M (list JsValue) :=
  console_log [LStr (lit "[" ++ lit tag
                       ++ lit "] Generating static params at build time")] ;;
  slugs <- Directus.getAllSlugs env w ;;
  ret (map (fun slug => JObject [(lit "slug", slug)]) slugs).

(** The body shared by the four page components up to the markup; they
    differ in the log line and in the cache directive. *)
Definition render_post (log_line : jsstring) (directive : CacheOptions)
    (slug : jsstring) : M PageView :=
  renderTime <- getServerTimestamp w ;;
  console_log [LStr log_line] ;;
  post <- Directus.getPost env w slug (Some directive) ;;
  (if negb (truthy post) then notFound else ret tt) ;;
  ret {| view_post := post; view_renderTime := renderTime |}.

(** [tags: ['blog', `blog-${slug}`]] *)
Definition blog_tags (slug : jsstring) : list jsstring :=
  [lit "blog"; lit "blog-" ++ slug].

Definition SSRBlogPost (slug : jsstring) : M PageView :=
  render_post (lit "[SSR] Rendering blog post: " ++ slug)
    (CacheString cache_no_store) slug.

Definition SSGBlogPost (slug : jsstring) : M PageView :=
  render_post (lit "[SSG] Rendering static blog post: " ++ slug
                 ++ lit " at build time")
    (CacheString cache_force_cache) slug.

Definition ISRTimeBlogPost (slug : jsstring) : M PageView :=
  render_post (lit "[ISR-Time] Rendering blog post: " ++ slug)
    (CacheObject (Some (Some {| revalidate := Some (revalidate_seconds 60);
                                tags := Some (blog_tags slug) |})))
    slug.

Definition ISROnDemandBlogPost (slug : jsstring) : M PageView :=
  render_post (lit "[ISR-OnDemand] Rendering blog post: " ++ slug)
    (CacheObject (Some (Some {| revalidate := Some revalidate_false;
                                tags := Some (blog_tags slug) |})))
    slug.
End Pages.

Module SsgPage.
Definition generateStaticParams (env : Env) (w : World) : M (list JsValue) :=
  generateStaticParams_tagged env w "SSG".
End SsgPage.

Module IsrPage.
Definition generateStaticParams (env : Env) (w : World) : M (list JsValue) :=
  generateStaticParams_tagged env w "ISR-Time".
End IsrPage.

Module IsrOnDemandPage.
Definition generateStaticParams (env : Env) (w : World) : M (list JsValue) :=
  generateStaticParams_tagged env w "ISR-OnDemand".
End IsrOnDemandPage.

(** ** The client-rendered blog page (src/app/blog/csr/[slug]/page.tsx) *)

(** The component's state: [post], [loading], [error], [fetchTime]. *)
Record CsrState : Type := {
  csr_post : JsValue;                  (* [null] until a post arrives *)
  csr_loading : bool;
  csr_error : option jsstring;         (* [None] is [null] *)
  csr_fetchTime : Z
}.

(** [useState] initial values. *)
Definition csr_initial : CsrState :=
  {| csr_post := JNull; csr_loading := true; csr_error := None;
     csr_fetchTime := 0 |}.

Section CsrPage.
Variable NEXT_PUBLIC_DIRECTUS_URL : option jsstring.   (* [process.env....] *)
Variable w : World.

Definition csr_request (base slug : jsstring) : Request :=
  {| req_url := base ++ lit "/items/blog_posts?filter[slug][_eq]=" ++ slug
                  ++ lit "&fields=slug,title,content,date_updated";
     req_headers := [];
     req_cache := Some cache_no_store;
     req_next := None;
     req_redirect := None |}.

(** The [catch] clause followed by the [finally] clause. *)
Definition csr_on_error (st : CsrState) (err : Thrown) : M CsrState :=
  console_error [LStr (lit "[CSR] Error fetching post:"); LThrown err] ;;
  ret {| csr_post := csr_post st;
         csr_loading := false;
         csr_error := Some (error_message err);
         csr_fetchTime := csr_fetchTime st |}.

(** [fetchPost]: the [try] block is unrolled so that each exit reaches the
    handler with the component state as the setters have left it. *)
Definition fetchPost (slug : jsstring) (st : CsrState) : M CsrState :=
  startTime <- Date_now w ;;
  let st1 := {| csr_post := csr_post st; csr_loading := true;
                csr_error := None; csr_fetchTime := csr_fetchTime st |} in
  match NEXT_PUBLIC_DIRECTUS_URL with
  | Some (c :: base) =>
      fetched <- attempt (fetch w (csr_request (c :: base) slug)) ;;
      match fetched with
      | Throw err => csr_on_error st1 err
      | Ok response =>
          now <- Date_now w ;;
          let st2 := {| csr_post := csr_post st1; csr_loading := true;
                        csr_error := None;
                        csr_fetchTime := now - startTime |} in
          if negb (resp_ok response) then
            csr_on_error st2
              (ErrorObj (lit "Failed to fetch: " ++ resp_statusText response))
          else
            match resp_json response with
            | Throw err => csr_on_error st2 err
            | Ok data =>
                match get_prop data "data" with
                | Throw err => csr_on_error st2 err
                | Ok d =>
                    let fetchedPost := Directus.optional_index0 d in
                    if negb (truthy fetchedPost) then
                      csr_on_error st2 (ErrorObj (lit "Post not found"))
                    else
                      ret {| csr_post := fetchedPost;
                             csr_loading := false;
                             csr_error := None;
                             csr_fetchTime := now - startTime |}
                end
            end
      end
  | _ =>
      csr_on_error st1
        (ErrorObj (lit "NEXT_PUBLIC_DIRECTUS_URL is not configured"))
  end.

(** The effect run when [slug] changes. *)
Definition csr_effect (slug : jsstring) (st : CsrState) : M CsrState :=
  if negb (str_truthy slug) then ret st
  else
    console_log [LStr (lit "[CSR] Fetching blog post: " ++ slug
                         ++ lit " from client")] ;;
    fetchPost slug st.
End CsrPage.

(** ** The browser side of the metrics pages
    (src/app/metrics/page.tsx, and the comparison page in src/app/page.tsx) *)

(** What the browser passes to [fetch('/api/metrics', init)]; [call_body]
    is the value handed to [JSON.stringify]. *)
Record ApiCall : Type := {
  call_url : jsstring;
  call_method : jsstring;
  call_headers : list (jsstring * jsstring);
  call_body : JsValue
}.

(** What a handler does that can be seen from outside, in order. *)
Inductive ClientEvent : Type :=
| Called (c : ApiCall)
| Slept (ms : Z).                      (* [await new Promise(r => setTimeout(r, ms))] *)

Definition metrics_api_call (url : jsstring) : ApiCall :=
  {| call_url := lit "/api/metrics";
     call_method := lit "POST";
     call_headers := [(lit "Content-Type", lit "application/json")];
     call_body := JObject [(lit "url", JString url)] |}.

Section Browser.
(** The server as the browser sees it. *)
Variable api : ApiCall -> Result Response.

(** The body of the [try] block that [handleTest] and [testSingleMode]
    share, up to what they do with [data]:
    [fetch], [response.json()], and
    [if (!response.ok) throw new Error(data.error || 'Failed to fetch metrics')]. *)
Definition request_metrics (url : jsstring) : Result JsValue :=
  match api (metrics_api_call url) with
  | Throw err => Throw err
  | Ok response =>
      match resp_json response with
      | Throw err => Throw err
      | Ok data =>
          if negb (resp_ok response) then
            match get_prop data "error" with
            | Throw err => Throw err
            | Ok message =>
                Throw (ErrorObj
                         (if truthy message then js_ToString message
                          else lit "Failed to fetch metrics"))
            end
          else Ok data
      end
  end.

(** *** [MetricsLabPage] *)

Record LabState : Type := {
  lab_url : jsstring;
  lab_loading : bool;
  lab_result : JsValue;                (* [null] when there is none *)
  lab_error : option jsstring          (* [None] is [null] *)
}.

Definition handleTest (st : LabState) (trace : list ClientEvent)
  : LabState * list ClientEvent :=
  if negb (str_truthy (lab_url st)) then
    ({| lab_url := lab_url st; lab_loading := lab_loading st;
        lab_result := lab_result st;
        lab_error := Some (lit "Please enter a URL") |}, trace)
  else
    let trace' := trace ++ [Called (metrics_api_call (lab_url st))] in
    match request_metrics (lab_url st) with
    | Ok data =>
        ({| lab_url := lab_url st; lab_loading := false;
            lab_result := data; lab_error := None |}, trace')
    | Throw err =>
        ({| lab_url := lab_url st; lab_loading := false;
            lab_result := JNull;
            lab_error := Some (error_message err) |}, trace')
    end.

(** [fillUrl(path)], with [origin] for [window.location.origin]. *)
Definition fillUrl (origin path : jsstring) (st : LabState) : LabState :=
  {| lab_url := origin ++ path; lab_loading := lab_loading st;
     lab_result := lab_result st; lab_error := lab_error st |}.

(** *** [SlugMetricsPage] *)

Record ModeResult : Type := {
  mr_mode : jsstring;
  mr_label : jsstring;
  mr_color : jsstring;
  mr_result : JsValue;
  mr_error : option jsstring;
  mr_loading : bool
}.

Record SlugPageState : Type := {
  sp_baseUrl : jsstring;
  sp_testing : bool;
  sp_modes : list ModeResult
}.

Definition initial_mode (mode label color : string) : ModeResult :=
  {| mr_mode := lit mode; mr_label := lit label; mr_color := lit color;
     mr_result := JNull; mr_error := None; mr_loading := false |}.

Definition initial_modes : list ModeResult :=
  [initial_mode "ssr" "SSR" "blue";
   initial_mode "ssg" "SSG" "green";
   initial_mode "isr" "ISR (Time)" "purple";
   initial_mode "isr-ondemand" "ISR (On-Demand)" "orange";
   initial_mode "csr" "CSR" "red"].

(** [testSingleMode(mode)]: the pair is [{ result, error }]. *)
Definition testSingleMode (baseUrl slug mode : jsstring)
    (trace : list ClientEvent)
  : (JsValue * option jsstring) * list ClientEvent :=
  let url := baseUrl ++ lit "/blog/" ++ mode ++ lit "/" ++ slug in
  (match request_metrics url with
   | Ok data => (data, None)
   | Throw err => (JNull, Some (error_message err))
   end,
   trace ++ [Called (metrics_api_call url)]).

(** [prev.map((m, idx) => idx === i ? f(m) : m)] *)
Fixpoint map_at {A} (i : nat) (f : A -> A) (l : list A) : list A :=
  match l, i with
  | [], _ => []
  | x :: r, O => f x :: r
  | x :: r, S j => x :: map_at j f r
  end.

(** The [for] loop of [testAllModes] from index [i] on: [todo] is what is
    left of the [modes] the handler closed over, [current] the state the
    updater functions see. *)
Fixpoint test_each (baseUrl slug : jsstring) (i : nat) (todo : list ModeResult)
    (current : list ModeResult) (trace : list ClientEvent)
  : list ModeResult * list ClientEvent :=
  match todo with
  | [] => (current, trace)
  | mode :: rest =>
      let '((result, error), trace1) :=
        testSingleMode baseUrl slug (mr_mode mode) trace in
      let current' :=
        map_at i (fun m => {| mr_mode := mr_mode m; mr_label := mr_label m;
                              mr_color := mr_color m; mr_result := result;
                              mr_error := error; mr_loading := false |})
          current in
      test_each baseUrl slug (S i) rest current' (trace1 ++ [Slept 100])
  end.

Definition testAllModes (slug : jsstring) (st : SlugPageState)
    (trace : list ClientEvent) : SlugPageState * list ClientEvent :=
  let loading_all :=
    map (fun m => {| mr_mode := mr_mode m; mr_label := mr_label m;
                     mr_color := mr_color m; mr_result := JNull;
                     mr_error := None; mr_loading := true |})
      (sp_modes st) in
  let '(final, trace') :=
    test_each (sp_baseUrl st) slug 0 (sp_modes st) loading_all trace in
  ({| sp_baseUrl := sp_baseUrl st; sp_testing := false; sp_modes := final |},
   trace').
End Browser.

(** *** The comparison table and the insights of [SlugMetricsPage] *)

(** An element of [ttfbs]: [{ mode: m.label, ttfb: m.result.ttfb }]. *)
Record TtfbEntry : Type := {
  te_mode : jsstring;
  te_ttfb : Z
}.

(** [array.reduce(f)] without an initial value. *)
Definition reduce1 {A} (f : A -> A -> A) (l : list A) : Result A :=
  match l with
  | [] => Throw (TypeError "Reduce of empty array with no initial value")
  | x :: r => Ok (fold_left f r x)
  end.

(** [ttfbs.reduce((a, b) => a.ttfb < b.ttfb ? a : b)] *)
Definition fastest (ttfbs : list TtfbEntry) : Result TtfbEntry :=
  reduce1 (fun a b => if te_ttfb a <? te_ttfb b then a else b) ttfbs.

(** [ttfbs.reduce((a, b) => a.ttfb > b.ttfb ? a : b)] *)
Definition slowest (ttfbs : list TtfbEntry) : Result TtfbEntry :=
  reduce1 (fun a b => if te_ttfb a >? te_ttfb b then a else b) ttfbs.

(** [Math.min(...values)]; [None] is [Infinity], the minimum of nothing. *)
Definition Math_min (values : list Z) : option Z :=
  match values with
  | [] => None
  | x :: r => Some (fold_left Z.min r x)
  end.

(** [Math.min(...values) === value] *)
Definition isFastestTTFB (values : list Z) (value : Z) : bool :=
  match Math_min values with
  | Some m => m =? value
  | None => false
  end.

(** * Vocabulary of the statements *)

(** What the platform answers to the probe of the returning variant: the
    response and its body, or the first exception on the way there. *)
Definition probe_outcome (env : Env) (w : World) (url : JsValue)
  : Result (Response * jsstring) :=
  match Part002.url_startsWith_slash url with
  | Throw e => Throw e
  | Ok (isRelative, u) =>
      match network w (metrics_request (Part002.fetchUrl_of env isRelative u)) with
      | Throw e => Throw e
      | Ok response =>
          match resp_text response with
          | Throw e => Throw e
          | Ok html => Ok (response, html)
          end
      end
  end.

(** The same for the raising variant, which fetches the URL as given. *)
Definition probe_outcome_lib (w : World) (url : JsValue)
  : Result (Response * jsstring) :=
  match network w (metrics_request (js_ToString url)) with
  | Throw e => Throw e
  | Ok response =>
      match resp_text response with
      | Throw e => Throw e
      | Ok html => Ok (response, html)
      end
  end.

(** What the preview of a body [html] has to satisfy. *)
Definition preview_ok (html preview : jsstring) : Prop :=
  (length preview <= 300)%nat /\
  ((length html < 300)%nat -> preview = trim (replace_whitespace_runs html)).

(** [post.slug] of an element that is neither [null] nor [undefined]. *)
Definition slug_of (post : JsValue) : JsValue :=
  match get_prop post "slug" with
  | Ok v => v
  | Throw _ => JUndefined
  end.

Definition is_nullish (v : JsValue) : bool :=
  match v with
  | JUndefined | JNull => true
  | _ => false
  end.

(** [s.split(sep)] for a one-character separator. *)
Fixpoint split_on (sep : code_unit) (s : jsstring) : list jsstring :=
  match s with
  | [] => [[]]
  | c :: r =>
      if (c =? sep)%N then [] :: split_on sep r
      else match split_on sep r with
           | [] => [[c]]
           | piece :: pieces => (c :: piece) :: pieces
           end
  end.

Definition ampersand : code_unit := 38%N.

(** The query string the CMS receives from [getPost]: what follows
    [<base>/items/blogs?] in the request URL. *)
Definition getPost_query (slug : jsstring) : jsstring :=
  lit "filter[slug][_eq]=" ++ slug
    ++ lit "&fields=slug,title,content,date_created,date_updated".

(** ** Concrete platforms used to exercise the statements *)

Definition init_state : State :=
  {| ticks := 0; console := []; requests := []; revalidated := [] |}.

Definition no_env : Env :=
  {| env_DIRECTUS_URL := None; env_DIRECTUS_TOKEN := None;
     env_VERCEL_URL := None |}.

(** A platform with a clock that advances 7 ms per reading, a URL parser
    that accepts exactly the strings starting with [http://], and the
    network behaviour [net]. *)
Definition world_with (net : Request -> Result Response) : World :=
  {| clock := fun n => 1000 + 7 * Z.of_nat n;
     network := net;
     toISOString := dec;
     URL_parse := fun s =>
       if startsWith (lit "http://") s
       then Some {| url_host := lit "localhost:3000";
                    url_pathname := lit "/";
                    url_search := [] |}
       else None;
     revalidatePath_outcome := fun _ => None |}.

(** The network is down: [fetch] rejects with the usual [TypeError]. *)
Definition world_down : World :=
  world_with (fun _ => Throw (ErrorObj (lit "fetch failed"))).

(** Every request is answered [200 OK] with the given text and JSON. *)
Definition ok_response (text : jsstring) (json : Result JsValue) : Response :=
  {| resp_status := 200;
     resp_statusText := lit "OK";
     resp_headers := [(lit "content-type", lit "text/html")];
     resp_text := Ok text;
     resp_json := json |}.

Definition world_serving (text : jsstring) (json : Result JsValue) : World :=
  world_with (fun _ => Ok (ok_response text json)).

(** A short page that ends with a newline. *)
Definition page_hi : jsstring := lit "<p>Hi</p>" ++ [10%N].

Definition unreachable_url : JsValue :=
  JString (lit "http://unreachable.invalid/").

Definition hello_url : JsValue :=
  JString (lit "http://localhost:3000/blog/ssr/hello-world").

Definition world_page_hi : World :=
  world_serving page_hi (Throw (ErrorObj (lit "Unexpected token < in JSON"))).

(** The same page on a machine whose wall clock is set back by 5 ms while
    the body is being read: [Date.now()] reads 1000, 1010, 1005. *)
Definition world_clock_set_back : World :=
  {| clock := fun n => match n with
                       | O => 1000
                       | S O => 1010
                       | _ => 1005
                       end;
     network := network world_page_hi;
     toISOString := toISOString world_page_hi;
     URL_parse := URL_parse world_page_hi;
     revalidatePath_outcome := revalidatePath_outcome world_page_hi |}.

(** The scenario of the specification: the CMS holds one item. *)
Definition hello_item : JsValue :=
  JObject [(lit "slug", JString (lit "hello-world"));
           (lit "title", JString (lit "Hello"));
           (lit "content", JString (lit "<p>Hi</p>"))].

Definition world_cms (items : list JsValue) : World :=
  world_serving [] (Ok (JObject [(lit "data", JArray items)])).

Definition isr_directive : CacheOptions :=
  CacheObject (Some (Some {| revalidate := Some (revalidate_seconds 60);
                             tags := Some [lit "blog"] |})).

Definition post_of_slug (slug : jsstring) : JsValue :=
  JObject [(lit "slug", JString slug)].

Definition request_of (body : JsValue) : NextRequest :=
  {| request_json := Ok body; request_host := Some (lit "localhost:3000") |}.



Definition sample_body : JsValue :=
  JObject [(lit "slug", JString (lit "sample"))].

Definition sample_body_with_secret (secret : jsstring) : JsValue :=
  JObject [(lit "slug", JString (lit "sample"));
           (lit "secret", JString secret)].



(** A CMS answer whose second item is [null]. *)
Definition world_cms_with_null : World :=
  world_cms [post_of_slug (lit "hello-world"); JNull; post_of_slug (lit "sample")].

Definition env_with_token : Env :=
  {| env_DIRECTUS_URL := Some (lit "https://cms.example");
     env_DIRECTUS_TOKEN := Some (lit "s3cr3t");
     env_VERCEL_URL := Some (lit "blog.example") |}.

(** Whitespace-normal strings: every whitespace code unit is a plain
    space and follows a code unit that is not whitespace ([prev_ws] tells
    whether the code unit before the string was whitespace). *)
Fixpoint normal_from (prev_ws : bool) (s : jsstring) : bool :=
  match s with
  | [] => true
  | c :: r =>
      if is_whitespace c
      then negb prev_ws && (c =? space)%N && normal_from true r
      else normal_from false r
  end.

(** Every request is answered [404 Not Found] with a small error page. *)
Definition world_not_found : World :=
  world_with (fun _ =>
    Ok {| resp_status := 404;
          resp_statusText := lit "Not Found";
          resp_headers := [(lit "content-type", lit "text/html")];
          resp_text := Ok (lit "<h1>404</h1>");
          resp_json := Throw (ErrorObj (lit "Unexpected token < in JSON")) |}).

(** Response headers with a repeated name. *)
Definition repeated_headers : list (jsstring * jsstring) :=
  [(lit "set-cookie", lit "a=1"); (lit "content-type", lit "text/html");
   (lit "set-cookie", lit "b=2")].

(** Response headers one of which is named [__proto__]. *)
Definition polluting_headers : list (jsstring * jsstring) :=
  [(lit "__proto__", lit "x"); (lit "content-type", lit "text/html")].




(** A platform on which every [revalidatePath] call fails. *)
Definition world_no_revalidation : World :=
  {| clock := fun n => 1000 + 7 * Z.of_nat n;
     network := fun _ => Throw (ErrorObj (lit "fetch failed"));
     toISOString := dec;
     URL_parse := fun _ => None;
     revalidatePath_outcome := fun _ =>
       Some (ErrorObj (lit "static generation store missing")) |}.

(** A platform whose clock prints as a fixed ISO date. *)
Definition sample_iso : jsstring := lit "2026-11-03T10:15:30.123Z".

Definition world_iso (items : list JsValue) : World :=
  {| clock := fun n => 1000 + 7 * Z.of_nat n;
     network := fun _ =>
       Ok (ok_response [] (Ok (JObject [(lit "data", JArray items)])));
     toISOString := fun _ => sample_iso;
     URL_parse := fun _ => None;
     revalidatePath_outcome := fun _ => None |}.

(** One entry of [generateStaticParams]. *)
Definition param_of (slug : JsValue) : JsValue :=
  JObject [(lit "slug", slug)].

(** What [getPost] returns, read off the platform's answer. *)
Definition getPost_value (env : Env) (w : World) (slug : jsstring)
    (opts : option CacheOptions) : JsValue :=
  match network w (Directus.getPost_request env slug opts) with
  | Throw _ => JNull
  | Ok resp =>
      if resp_ok resp then
        match resp_json resp with
        | Throw _ => JNull
        | Ok data =>
            match get_prop data "data" with
            | Throw _ => JNull
            | Ok d =>
                if truthy (Directus.optional_index0 d)
                then Directus.optional_index0 d
                else JNull
            end
        end
      else JNull
  end.

Definition public_cms : option jsstring := Some (lit "https://cms.example").

(** The state [fetchPost] leaves behind when it reports [msg]. *)
Definition csr_failed (st : CsrState) (fetchTime : Z) (msg : jsstring) : CsrState :=
  {| csr_post := csr_post st; csr_loading := false;
     csr_error := Some msg; csr_fetchTime := fetchTime |}.

(** The state [fetchPost] leaves behind with a configured CMS address,
    read off the platform's answer when [elapsed] is the fetch time. *)
Definition csr_final (w : World) (base slug : jsstring) (st : CsrState)
    (elapsed : Z) : CsrState :=
  match network w (csr_request base slug) with
  | Throw err => csr_failed st (csr_fetchTime st) (error_message err)
  | Ok resp =>
      if resp_ok resp then
        match resp_json resp with
        | Throw err => csr_failed st elapsed (error_message err)
        | Ok data =>
            match get_prop data "data" with
            | Throw err => csr_failed st elapsed (error_message err)
            | Ok d =>
                if truthy (Directus.optional_index0 d)
                then {| csr_post := Directus.optional_index0 d;
                        csr_loading := false; csr_error := None;
                        csr_fetchTime := elapsed |}
                else csr_failed st elapsed (lit "Post not found")
            end
        end
      else csr_failed st elapsed
             (lit "Failed to fetch: " ++ resp_statusText resp)
  end.

(** The URL [testSingleMode] probes for a mode. *)
Definition mode_url (baseUrl slug mode : jsstring) : jsstring :=
  baseUrl ++ lit "/blog/" ++ mode ++ lit "/" ++ slug.

(** The entry of a mode once its probe is done. *)
Definition finished_mode (api : ApiCall -> Result Response)
    (baseUrl slug : jsstring) (m : ModeResult) : ModeResult :=
  {| mr_mode := mr_mode m; mr_label := mr_label m; mr_color := mr_color m;
     mr_result := match request_metrics api (mode_url baseUrl slug (mr_mode m)) with
                  | Ok data => data
                  | Throw _ => JNull
                  end;
     mr_error := match request_metrics api (mode_url baseUrl slug (mr_mode m)) with
                 | Ok _ => None
                 | Throw err => Some (error_message err)
                 end;
     mr_loading := false |}.

(** What probing one mode shows from outside. *)
Definition mode_events (baseUrl slug : jsstring) (m : ModeResult)
  : list ClientEvent :=
  [Called (metrics_api_call (mode_url baseUrl slug (mr_mode m))); Slept 100].

(** A server that rejects every URL as the metrics route does. *)
Definition api_rejecting : ApiCall -> Result Response :=
  fun _ =>
    Ok {| resp_status := 400;
          resp_statusText := lit "Bad Request";
          resp_headers := [];
          resp_text := Ok [];
          resp_json := Ok (JObject [(lit "error", JString (lit "Invalid URL format"))]) |}.

(** A server that answers every probe with the same small result. *)
Definition api_answering : ApiCall -> Result Response :=
  fun _ =>
    Ok {| resp_status := 200;
          resp_statusText := lit "OK";
          resp_headers := [];
          resp_text := Ok [];
          resp_json := Ok (JObject [(lit "status", JNumber 200);
                                    (lit "ttfb", JNumber 12)]) |}.

Definition three_ttfbs : list TtfbEntry :=
  [{| te_mode := lit "SSR"; te_ttfb := 120 |};
   {| te_mode := lit "SSG"; te_ttfb := 8 |};
   {| te_mode := lit "CSR"; te_ttfb := 8 |}].

(** A body of spaces and tabs around two words. *)
Definition ragged_body : jsstring :=
  [32%N; 9%N] ++ lit "Hello" ++ [10%N; 10%N; 32%N] ++ lit "world" ++ [9%N].

Definition null_request : NextRequest :=
  {| request_json := Ok JNull; request_host := None |}.

(** * Properties *)

(** ** Strings: truncation, whitespace collapsing, trimming *)

Lemma collapse_from_length (s : jsstring) :
  forall in_run, (length (collapse_from in_run s) <= length s)%nat.
Proof.
  induction s as [|c r IH]; intros in_run; simpl.
  - lia.
  - destruct (is_whitespace c).
    + destruct in_run; simpl; specialize (IH true); lia.
    + simpl. specialize (IH false). lia.
Qed.

Lemma trimStart_length (s : jsstring) : (length (trimStart s) <= length s)%nat.
Proof.
  induction s as [|c r IH]; simpl.
  - lia.
  - destruct (is_whitespace c); simpl; lia.
Qed.

Lemma trim_length (s : jsstring) : (length (trim s) <= length s)%nat.
Proof.
  unfold trim, trimEnd.
  rewrite length_rev.
  etransitivity; [apply trimStart_length|].
  rewrite length_rev. apply trimStart_length.
Qed.

Lemma htmlPreview_of_length (html : jsstring) :
  (length (htmlPreview_of html) <= 300)%nat.
Proof.
  unfold htmlPreview_of, replace_whitespace_runs, substring0.
  etransitivity; [apply trim_length|].
  etransitivity; [apply collapse_from_length|].
  apply firstn_le_length.
Qed.

Lemma htmlPreview_of_short (html : jsstring) :
  (length html < 300)%nat ->
  htmlPreview_of html = trim (replace_whitespace_runs html).
Proof.
  intros H. unfold htmlPreview_of, substring0.
  rewrite firstn_all2 by lia. reflexivity.
Qed.

(** After collapsing, the only whitespace left is the plain space ... *)
Lemma collapse_from_only_spaces (s : jsstring) :
  forall in_run c,
    In c (collapse_from in_run s) -> is_whitespace c = true -> c = space.
Proof.
  induction s as [|a r IH]; intros in_run c Hin Hws; simpl in Hin.
  - contradiction.
  - destruct (is_whitespace a) eqn:Ha.
    + destruct in_run.
      * eapply IH; eauto.
      * destruct Hin as [<-|Hin]; [reflexivity | eapply IH; eauto].
    + destruct Hin as [<-|Hin]; [congruence | eapply IH; eauto].
Qed.

(** ... and everything that is not whitespace is kept, in order. *)
Lemma collapse_from_keeps_text (s : jsstring) :
  forall in_run,
    filter (fun c => negb (is_whitespace c)) (collapse_from in_run s)
    = filter (fun c => negb (is_whitespace c)) s.
Proof.
  induction s as [|a r IH]; intros in_run; simpl.
  - reflexivity.
  - destruct (is_whitespace a) eqn:Ha; simpl.
    + destruct in_run; simpl; [apply IH|].
      change (is_whitespace space) with true. simpl. apply IH.
    + rewrite Ha. simpl. f_equal. apply IH.
Qed.

Lemma trimStart_keeps_text (s : jsstring) :
  filter (fun c => negb (is_whitespace c)) (trimStart s)
  = filter (fun c => negb (is_whitespace c)) s.
Proof.
  induction s as [|a r IH]; simpl.
  - reflexivity.
  - destruct (is_whitespace a) eqn:Ha; simpl; [exact IH|].
    rewrite Ha. reflexivity.
Qed.

Lemma filter_rev {A} (f : A -> bool) (l : list A) :
  filter f (rev l) = rev (filter f l).
Proof.
  induction l as [|a r IH]; simpl.
  - reflexivity.
  - rewrite filter_app, IH. simpl. destruct (f a); simpl.
    + reflexivity.
    + now rewrite app_nil_r.
Qed.

Lemma trim_keeps_text (s : jsstring) :
  filter (fun c => negb (is_whitespace c)) (trim s)
  = filter (fun c => negb (is_whitespace c)) s.
Proof.
  unfold trim, trimEnd.
  rewrite filter_rev, trimStart_keeps_text, filter_rev, rev_involutive.
  apply trimStart_keeps_text.
Qed.

Lemma trimStart_head (s : jsstring) (c : code_unit) (r : jsstring) :
  trimStart s = c :: r -> is_whitespace c = false.
Proof.
  induction s as [|a t IH]; simpl; intros H.
  - discriminate.
  - destruct (is_whitespace a) eqn:Ha; [auto|].
    injection H as <- _. exact Ha.
Qed.

(** The preview never ends in whitespace, whatever the body. *)
Lemma htmlPreview_of_no_trailing_space (html pre : jsstring) (c : code_unit) :
  htmlPreview_of html = pre ++ [c] -> is_whitespace c = false.
Proof.
  unfold htmlPreview_of, trim, trimEnd. intros H.
  apply (f_equal (@rev code_unit)) in H.
  rewrite rev_involutive, rev_app_distr in H. simpl in H.
  eapply trimStart_head; eauto.
Qed.

Lemma htmlPreview_of_keeps_text (html : jsstring) :
  filter (fun c => negb (is_whitespace c)) (htmlPreview_of html)
  = filter (fun c => negb (is_whitespace c)) (substring0 300 html).
Proof.
  unfold htmlPreview_of, replace_whitespace_runs.
  now rewrite trim_keeps_text, collapse_from_keeps_text.
Qed.

(** [Blob] sizes are byte counts. *)
Lemma Blob_size_nonneg (s : jsstring) : 0 <= Blob_size s.
Proof.
  assert (H : forall n s, (length s <= n)%nat -> 0 <= Blob_size s).
  { clear s. induction n as [|n IH]; intros [|c r] Hlen;
      cbn [Blob_size length] in *; try lia.
    assert (Hr : 0 <= Blob_size r) by (apply IH; lia).
    destruct (c <? 128)%N; [lia|].
    destruct (c <? 2048)%N; [lia|].
    destruct (is_high_surrogate c); [|lia].
    destruct r as [|d r']; [lia|].
    destruct (is_low_surrogate d); [|lia].
    assert (0 <= Blob_size r') by (apply IH; cbn [length] in Hlen; lia). lia. }
  apply (H (length s)). lia.
Qed.

(** ** The metrics prober *)

Ltac run_monad :=
  unfold bind, try_catch, attempt, lift, ret, throw, fetch, Date_toISOString,
    Date_now, console_log, console_error, console_write, revalidatePath,
    new_URL; cbn.

Lemma ttfb_or_le (a b : Z) : a <= b -> ttfb_or a b <= b.
Proof. unfold ttfb_or. destruct (a =? 0); lia. Qed.



(** What the success path of the returning variant computes. *)
Lemma Part002_measure_success (env : Env) (w : World) (url : JsValue)
    (s : State) (response : Response) (html : jsstring) :
  probe_outcome env w url = Ok (response, html) ->
  exists r s',
    Part002.measurePageMetrics env w url s = (Ok r, s') /\
    status r = resp_status response /\
    statusText r = resp_statusText response /\
    ttfb r = clock w (S (ticks s)) - clock w (ticks s) /\
    totalTime r = clock w (S (S (ticks s))) - clock w (ticks s) /\
    htmlSize r = Blob_size html /\
    htmlPreview r = htmlPreview_of html /\
    headers r = collect_headers (resp_headers response).
Proof.
  unfold probe_outcome, Part002.measurePageMetrics, Part002.on_error,
    success_result.
  run_monad.
  destruct (Part002.url_startsWith_slash url) as [[rel u]|e]; cbn;
    [|discriminate].
  destruct (network w _) as [resp|e]; cbn; [|discriminate].
  destruct (resp_text resp) as [body|e]; cbn; [|discriminate].
  intros [= -> ->]. do 2 eexists. split; [reflexivity|]. cbn. tauto.
Qed.

Lemma SrcLib_measure_success (w : World) (url : JsValue)
    (s : State) (response : Response) (html : jsstring) :
  probe_outcome_lib w url = Ok (response, html) ->
  exists r s',
    SrcLibMetrics.measurePageMetrics w url s = (Ok r, s') /\
    status r = resp_status response /\
    statusText r = resp_statusText response /\
    ttfb r = clock w (S (ticks s)) - clock w (ticks s) /\
    totalTime r = clock w (S (S (ticks s))) - clock w (ticks s) /\
    htmlSize r = Blob_size html /\
    htmlPreview r = htmlPreview_of html /\
    headers r = collect_headers (resp_headers response).
Proof.
  unfold probe_outcome_lib, SrcLibMetrics.measurePageMetrics,
    SrcLibMetrics.on_error, success_result.
  run_monad.
  destruct (network w _) as [resp|e]; cbn; [|discriminate].
  destruct (resp_text resp) as [body|e]; cbn; [|discriminate].
  intros [= -> ->]. do 2 eexists. split; [reflexivity|]. cbn. tauto.
Qed.

(** The raising variant completes normally only on the success path. *)
Lemma SrcLib_measure_Ok_inv (w : World) (url : JsValue) (s s' : State)
    (r : MetricsResult) :
  SrcLibMetrics.measurePageMetrics w url s = (Ok r, s') ->
  exists response html, probe_outcome_lib w url = Ok (response, html).
Proof.
  unfold probe_outcome_lib, SrcLibMetrics.measurePageMetrics,
    SrcLibMetrics.on_error, success_result.
  run_monad.
  destruct (network w _) as [resp|e]; cbn; [|discriminate].
  destruct (resp_text resp) as [body|e]; cbn; [|discriminate].
  eauto.
Qed.


(** The two times of a result the returning variant builds in its
    handler. *)
Lemma Part002_measure_failure_times
    (env : Env) (w : World) (target : JsValue) (s s' : State)
    (r : MetricsResult) (e : Thrown) :
  Part002.measurePageMetrics env w target s = (Ok r, s') ->
  probe_outcome env w target = Throw e ->
  htmlSize r = 0 /\
  (ttfb r = totalTime r \/
   ttfb r = ttfb_or (clock w (S (ticks s)) - clock w (ticks s))
                    (clock w (S (S (ticks s))) - clock w (ticks s)) /\
   totalTime r = clock w (S (S (ticks s))) - clock w (ticks s)).
Proof.
  unfold probe_outcome, Part002.measurePageMetrics, Part002.on_error,
    success_result.
  run_monad.
  destruct (Part002.url_startsWith_slash target) as [[rel u]|e0]; cbn.
  - destruct (network w _) as [resp|e1]; cbn.
    + destruct (resp_text resp) as [body|e2]; cbn.
      * discriminate.
      * intros [= <- _] _. cbn. split; [reflexivity|]. right. now split.
    + intros [= <- _] _. cbn. split; [reflexivity|]. now left.
  - intros [= <- _] _. cbn. split; [reflexivity|]. now left.
Qed.

(** The raising variant throws nothing but its failure object, built
    either before the headers arrived or after. *)
Lemma SrcLib_measure_Throw_inv (w : World) (target : JsValue) (s s' : State)
    (v : Thrown) :
  SrcLibMetrics.measurePageMetrics w target s = (Throw v, s') ->
  exists e ttfbTime totalTime ts,
    v = NonError (SrcLibMetrics.failure_object target ttfbTime totalTime e ts) /\
    (ttfbTime = 0 \/
     ttfbTime = clock w (S (ticks s)) - clock w (ticks s) /\
     totalTime = clock w (S (S (ticks s))) - clock w (ticks s)).
Proof.
  unfold SrcLibMetrics.measurePageMetrics, SrcLibMetrics.on_error,
    success_result.
  run_monad.
  destruct (network w _) as [response|e1]; cbn.
  - destruct (resp_text response) as [html|e2]; cbn; [discriminate|].
    intros [= <- _]. exists e2. do 3 eexists. split; [reflexivity|].
    right. split; reflexivity.
  - intros [= <- _]. exists e1. do 3 eexists. split; [reflexivity|].
    now left.
Qed.

(** C1.  When [fetch] rejects, the [measurePageMetrics] of
    src/lib/metrics.ts does not return a [MetricsResult]: it raises, and
    what it raises is the failure record itself ([status] 0, [statusText]
    ['Fetch Failed'], the elapsed time in [ttfb] and [totalTime], the
    message of the rejection in [error]).  For the same URL and the same
    rejection the variant in src/unnamed/part_002 returns a result with
    these very fields, which is what the return type
    [Promise<MetricsResult>] of both announces. *)
Theorem measurePageMetrics_lib_raises_failure_record
    (env : Env) (w : World) (u : jsstring) (s : State) (e : Thrown) :
  startsWith (lit "/") u = false ->
  network w (metrics_request u) = Throw e ->
  let elapsed := clock w (S (ticks s)) - clock w (ticks s) in
  let ts := toISOString w (clock w (S (S (ticks s)))) in
  (exists s',
     SrcLibMetrics.measurePageMetrics w (JString u) s
     = (Throw (NonError
                 (JObject [(lit "url", JString u);
                           (lit "status", JNumber 0);
                           (lit "statusText", JString (lit "Fetch Failed"));
                           (lit "ttfb", JNumber elapsed);
                           (lit "totalTime", JNumber elapsed);
                           (lit "error", JString (error_message e));
                           (lit "timestamp", JString ts)])), s')) /\
  (exists r s',
     Part002.measurePageMetrics env w (JString u) s = (Ok r, s') /\
     url r = JString u /\
     status r = 0 /\
     statusText r = lit "Fetch Failed" /\
     ttfb r = elapsed /\
     totalTime r = elapsed /\
     error r = Some (error_message e) /\
     timestamp r = ts).
Proof.
  intros Hrel Hnet elapsed ts. subst elapsed ts. split.
  - unfold SrcLibMetrics.measurePageMetrics, SrcLibMetrics.on_error,
      SrcLibMetrics.failure_object.
    unfold bind, attempt, fetch, Date_now, Date_toISOString, ret, throw.
    cbv beta iota. cbn [js_ToString ticks]. rewrite Hnet. cbv beta iota.
    cbn [ticks]. eexists. reflexivity.
  - unfold Part002.measurePageMetrics, Part002.on_error,
      Part002.url_startsWith_slash, Part002.fetchUrl_of.
    rewrite Hrel.
    unfold bind, attempt, lift, fetch, Date_now, Date_toISOString, ret,
      console_log, console_write.
    cbv beta iota. cbn [fst snd ticks]. rewrite Hnet. cbv beta iota.
    cbn [ticks]. do 2 eexists. split; [reflexivity|].
    cbn. repeat split; reflexivity.
Qed.

Lemma measurePageMetrics_lib_raises_failure_record_witness :
  (exists v s',
     SrcLibMetrics.measurePageMetrics world_down unreachable_url init_state
     = (Throw (NonError v), s') /\
     get_prop v "status" = Ok (JNumber 0) /\
     get_prop v "error" = Ok (JString (lit "fetch failed"))) /\
  (exists r s',
     Part002.measurePageMetrics no_env world_down unreachable_url init_state
     = (Ok r, s') /\
     status r = 0 /\ error r = Some (lit "fetch failed")).
Proof.
  destruct (@measurePageMetrics_lib_raises_failure_record
              no_env world_down (lit "http://unreachable.invalid/")
              init_state (ErrorObj (lit "fetch failed")) eq_refl eq_refl)
    as [[s1 Hlib] (r & s2 & Hret & _ & Hst & _ & _ & _ & Herr & _)].
  split.
  - eexists. exists s1. split; [exact Hlib|]. split; reflexivity.
  - exists r, s2. split; [exact Hret|]. split; assumption.
Defined.

(** C2 (as amended).  Every [MetricsResult] that either variant of
    [measurePageMetrics] returns, on the success path as on the failure
    path, has [htmlSize >= 0]; and it has [ttfb <= totalTime] provided the
    clock reading taken after the body (the second after the start) is not
    below the reading taken when the headers arrived (the first after the
    start).  The same holds of the [ttfb] and [totalTime] of the failure
    object that the variant of src/lib/metrics.ts throws. *)
Theorem measurePageMetrics_ttfb_le_totalTime
    (env : Env) (w : World) (target : JsValue) (s : State) :
  (forall r s',
      Part002.measurePageMetrics env w target s = (Ok r, s') \/
      SrcLibMetrics.measurePageMetrics w target s = (Ok r, s') ->
      0 <= htmlSize r /\
      (clock w (S (ticks s)) <= clock w (S (S (ticks s))) ->
       ttfb r <= totalTime r)) /\
  (forall v s',
      SrcLibMetrics.measurePageMetrics w target s = (Throw v, s') ->
      exists fields a b,
        v = NonError (JObject fields) /\
        assoc (lit "ttfb") fields = Some (JNumber a) /\
        assoc (lit "totalTime") fields = Some (JNumber b) /\
        (clock w (S (ticks s)) <= clock w (S (S (ticks s))) -> a <= b)).
Proof.
  split.
  - intros r s' [Hrun|Hrun].
    + destruct (probe_outcome env w target) as [[response html]|e] eqn:Hprobe.
      * destruct (Part002_measure_success env w target s Hprobe)
          as (r0 & s0 & Hrun0 & _ & _ & Httfb & Htotal & Hsize & _).
        rewrite Hrun in Hrun0. injection Hrun0 as <- <-.
        rewrite Httfb, Htotal, Hsize. split; [apply Blob_size_nonneg|lia].
      * destruct (Part002_measure_failure_times _ _ _ _ Hrun Hprobe)
          as (Hsize & Htimes).
        rewrite Hsize. split; [lia|]. intros H12.
        destruct Htimes as [->|[-> ->]]; [lia|].
        apply ttfb_or_le. lia.
    + destruct (SrcLib_measure_Ok_inv _ _ _ Hrun) as (response & html & Hprobe).
      destruct (SrcLib_measure_success w target s Hprobe)
        as (r0 & s0 & Hrun0 & _ & _ & Httfb & Htotal & Hsize & _).
      rewrite Hrun in Hrun0. injection Hrun0 as <- <-.
      rewrite Httfb, Htotal, Hsize. split; [apply Blob_size_nonneg|lia].
  - intros v s' Hrun.
    destruct (SrcLib_measure_Throw_inv _ _ _ Hrun)
      as (e & ttfbTime & totalTime & ts & -> & Htimes).
    unfold SrcLibMetrics.failure_object. do 3 eexists.
    split; [reflexivity|]. split; [reflexivity|]. split; [reflexivity|].
    intros H12. destruct Htimes as [->|[-> ->]].
    + unfold ttfb_or. cbn. lia.
    + apply ttfb_or_le. lia.
Qed.

Lemma measurePageMetrics_ttfb_le_totalTime_witness :
  exists r s',
    Part002.measurePageMetrics no_env world_page_hi hello_url init_state
    = (Ok r, s') /\
    ttfb r <= totalTime r /\ 0 <= htmlSize r.
Proof.
  do 2 eexists. split; [lazy; reflexivity|].
  destruct (@measurePageMetrics_ttfb_le_totalTime
              no_env world_page_hi hello_url init_state) as [Hret _].
  edestruct Hret as [Hsize Hle]; [left; lazy; reflexivity|].
  split; [apply Hle; cbn; lia|exact Hsize].
Defined.

(** C2 (as stated) fails when the clock is set back during a probe: with
    the readings 1000, 1010 and 1005 both variants return [ttfb] 10 and
    [totalTime] 5. *)
Lemma measurePageMetrics_clock_set_back :
  (exists r s',
     Part002.measurePageMetrics no_env world_clock_set_back hello_url init_state
     = (Ok r, s') /\
     ttfb r = 10 /\ totalTime r = 5 /\ ~ ttfb r <= totalTime r) /\
  (exists r s',
     SrcLibMetrics.measurePageMetrics world_clock_set_back hello_url init_state
     = (Ok r, s') /\
     ttfb r = 10 /\ totalTime r = 5 /\ ~ ttfb r <= totalTime r).
Proof.
  split; do 2 eexists; (split; [lazy; reflexivity|]);
    (split; [reflexivity|]); (split; [reflexivity|]); cbn; lia.
Qed.

(** C5 (as amended).  Whenever a probe gets a body, the preview either
    variant of [measurePageMetrics] returns has at most 300 code units (so
    in particular for a body of 1000), and for a body shorter than 300 it
    is the whole body with every whitespace run collapsed to one space and
    then leading and trailing whitespace trimmed. *)
Theorem htmlPreview_truncated_collapsed_trimmed
    (env : Env) (w : World) (target : JsValue) (s : State)
    (response : Response) (html : jsstring) :
  (probe_outcome env w target = Ok (response, html) ->
   exists r s',
     Part002.measurePageMetrics env w target s = (Ok r, s') /\
     preview_ok html (htmlPreview r)) /\
  (probe_outcome_lib w target = Ok (response, html) ->
   exists r s',
     SrcLibMetrics.measurePageMetrics w target s = (Ok r, s') /\
     preview_ok html (htmlPreview r)).
Proof.
  unfold preview_ok. split; intros Hprobe.
  - destruct (Part002_measure_success env w target s Hprobe)
      as (r & s' & Hrun & _ & _ & _ & _ & _ & Hprev & _).
    exists r, s'. split; [exact Hrun|]. rewrite Hprev.
    split; [apply htmlPreview_of_length|apply htmlPreview_of_short].
  - destruct (SrcLib_measure_success w target s Hprobe)
      as (r & s' & Hrun & _ & _ & _ & _ & _ & Hprev & _).
    exists r, s'. split; [exact Hrun|]. rewrite Hprev.
    split; [apply htmlPreview_of_length|apply htmlPreview_of_short].
Qed.

Lemma htmlPreview_truncated_collapsed_trimmed_witness :
  exists r s',
    Part002.measurePageMetrics no_env world_page_hi hello_url init_state
    = (Ok r, s') /\
    htmlPreview r = lit "<p>Hi</p>".
Proof.
  destruct (@htmlPreview_truncated_collapsed_trimmed
              no_env world_page_hi hello_url init_state
              (ok_response page_hi
                 (Throw (ErrorObj (lit "Unexpected token < in JSON"))))
              page_hi) as [Hret _].
  destruct (Hret eq_refl) as (r & s' & Hrun & _ & Hshort).
  exists r, s'. split; [exact Hrun|].
  rewrite Hshort; [reflexivity | cbn; lia].
Defined.

(** C5 (as stated) fails: for the ten-character body [<p>Hi</p>] followed
    by a newline the preview is [<p>Hi</p>], whereas the body with its
    whitespace runs collapsed to single spaces still ends in a space. *)
Lemma htmlPreview_claim_fails :
  exists r s',
    Part002.measurePageMetrics no_env world_page_hi hello_url init_state
    = (Ok r, s') /\
    (length page_hi < 300)%nat /\
    htmlPreview r = lit "<p>Hi</p>" /\
    replace_whitespace_runs page_hi = lit "<p>Hi</p> " /\
    htmlPreview r <> replace_whitespace_runs page_hi.
Proof.
  do 2 eexists. split; [lazy; reflexivity|].
  split; [cbn; lia|].
  split; [reflexivity|]. split; [reflexivity|].
  cbn. discriminate.
Qed.

(** ** The content fetcher *)

Ltac run_getPost :=
  unfold Directus.getPost, Directus.optional_index0; run_monad.

(** [getPost] issues exactly one request, the one [getPost_request] builds. *)
Lemma getPost_requests (env : Env) (w : World) (slug : jsstring)
    (opts : option CacheOptions) (s : State) :
  requests (snd (Directus.getPost env w slug opts s))
  = requests s ++ [Directus.getPost_request env slug opts].
Proof.
  run_getPost.
  destruct (network w _) as [resp|e]; cbn; [|reflexivity].
  destruct (resp_ok resp); cbn; [|reflexivity].
  destruct (resp_json resp) as [data|e]; cbn; [|reflexivity].
  destruct (get_prop data "data") as [d|e]; cbn; [|reflexivity].
  destruct (truthy _); reflexivity.
Qed.

Lemma getPost_run (env : Env) (w : World) (slug : jsstring)
    (opts : option CacheOptions) (s : State) :
  exists s',
    Directus.getPost env w slug opts s
    = (Ok match network w (Directus.getPost_request env slug opts) with
          | Throw _ => JNull
          | Ok resp =>
              if resp_ok resp then
                match resp_json resp with
                | Throw _ => JNull
                | Ok data =>
                    match get_prop data "data" with
                    | Throw _ => JNull
                    | Ok d =>
                        if truthy (Directus.optional_index0 d)
                        then Directus.optional_index0 d
                        else JNull
                    end
                end
              else JNull
          end, s').
Proof.
  run_getPost.
  destruct (network w _) as [resp|e]; cbn; [|eauto].
  destruct (resp_ok resp); cbn; [|eauto].
  destruct (resp_json resp) as [data|e]; cbn; [|eauto].
  destruct (get_prop data "data") as [d|e]; cbn; [|eauto].
  unfold Directus.optional_index0.
  destruct (truthy _); cbn; eauto.
Qed.



(** C6.  The one request [getPost] sends carries the caller's cache
    directive unchanged: a string directive is the request's [cache]
    option, and for a structured directive the request's [next] option is
    the directive's [next] value; nothing else is put in either option. *)
Theorem getPost_forwards_cache_directive (env : Env) (w : World)
    (slug : jsstring) (opts : option CacheOptions) (s : State) :
  exists rq,
    requests (snd (Directus.getPost env w slug opts s)) = requests s ++ [rq] /\
    (forall mode, opts = Some (CacheString mode) ->
       req_cache rq = Some mode /\ req_next rq = None) /\
    (forall next_key, opts = Some (CacheObject next_key) ->
       req_next rq = CacheObject_next next_key /\ req_cache rq = None) /\
    (opts = None -> req_cache rq = None /\ req_next rq = None).
Proof.
  exists (Directus.getPost_request env slug opts).
  split; [apply getPost_requests|].
  split; [|split].
  - intros mode ->. split; reflexivity.
  - intros [k|] ->; split; reflexivity.
  - intros ->. split; reflexivity.
Qed.

Lemma getPost_forwards_cache_directive_witness :
  exists rq,
    requests (snd (Directus.getPost no_env (world_cms [hello_item])
                     (lit "hello-world") (Some isr_directive) init_state))
    = [rq] /\
    req_next rq = Some {| revalidate := Some (revalidate_seconds 60);
                          tags := Some [lit "blog"] |} /\
    req_cache rq = None.
Proof.
  destruct (getPost_forwards_cache_directive no_env (world_cms [hello_item])
              (lit "hello-world") (Some isr_directive) init_state)
    as (rq & Hreq & _ & Hobj & _).
  exists rq. split; [exact Hreq|].
  exact (Hobj _ eq_refl).
Defined.

Lemma split_on_nonempty (sep : code_unit) (s : jsstring) :
  exists piece pieces, split_on sep s = piece :: pieces.
Proof.
  destruct s as [|c r]; cbn [split_on]; [eauto|].
  destruct (c =? sep)%N; [eauto|].
  destruct (split_on sep r); eauto.
Qed.

Lemma split_on_app_sep (sep : code_unit) (a b : jsstring) :
  split_on sep (a ++ sep :: b) = split_on sep a ++ split_on sep b.
Proof.
  induction a as [|c a IH]; cbn [app split_on].
  - now rewrite N.eqb_refl.
  - destruct (c =? sep)%N.
    + now rewrite IH.
    + rewrite IH.
      destruct (split_on_nonempty sep a) as (piece & pieces & ->).
      reflexivity.
Qed.

Lemma split_on_length (sep : code_unit) (s : jsstring) :
  length (split_on sep s) = S (count_occ N.eq_dec s sep).
Proof.
  induction s as [|c r IH]; cbn [split_on count_occ].
  - reflexivity.
  - destruct (N.eqb_spec c sep) as [->|Hne].
    + destruct (N.eq_dec sep sep); [|congruence]. cbn. now rewrite IH.
    + destruct (N.eq_dec c sep); [congruence|].
      destruct (split_on sep r); cbn in *; lia.
Qed.

(** C10.  For every slug, the URL of the one request [getPost] sends is
    the CMS base followed by [/items/blogs?filter[slug][_eq]=], the slug
    exactly as given, and
    [&fields=slug,title,content,date_created,date_updated].  Nothing is
    encoded or rejected, so each [&] inside the slug adds a parameter to
    the query string the CMS receives: the slug [x&fields=slug] yields three
    parameters instead of two. *)
Theorem getPost_url_inserts_slug_verbatim (env : Env) (w : World)
    (slug : jsstring) (opts : option CacheOptions) (s : State) :
  exists rq,
    requests (snd (Directus.getPost env w slug opts s)) = requests s ++ [rq] /\
    req_url rq
    = Directus.DIRECTUS_URL env ++ lit "/items/blogs?filter[slug][_eq]=" ++ slug
        ++ lit "&fields=slug,title,content,date_created,date_updated" /\
    req_url rq
    = Directus.DIRECTUS_URL env ++ lit "/items/blogs?" ++ getPost_query slug /\
    length (split_on ampersand (getPost_query slug))
    = (2 + count_occ N.eq_dec slug ampersand)%nat /\
    split_on ampersand (getPost_query (lit "x&fields=slug"))
    = [lit "filter[slug][_eq]=x"; lit "fields=slug";
       lit "fields=slug,title,content,date_created,date_updated"].
Proof.
  exists (Directus.getPost_request env slug opts).
  split; [apply getPost_requests|].
  assert (Hurl : req_url (Directus.getPost_request env slug opts)
                 = Directus.getPost_url env slug).
  { destruct opts as [[mode|[k|]]|]; reflexivity. }
  rewrite Hurl. unfold Directus.getPost_url, getPost_query.
  split; [reflexivity|]. split; [reflexivity|]. split; [|reflexivity].
  change (lit "&fields=slug,title,content,date_created,date_updated")
    with (ampersand :: lit "fields=slug,title,content,date_created,date_updated").
  rewrite app_assoc, split_on_app_sep, length_app, !split_on_length.
  rewrite count_occ_app.
  change (count_occ N.eq_dec (lit "filter[slug][_eq]=") ampersand) with 0%nat.
  change (count_occ N.eq_dec
            (lit "fields=slug,title,content,date_created,date_updated")
            ampersand) with 0%nat.
  rewrite Nat.add_0_l, Nat.add_1_r. reflexivity.
Qed.

(** ** Enumerating the slugs *)

Lemma map_slug_non_nullish (posts : list JsValue) :
  forallb (fun p => negb (is_nullish p)) posts = true ->
  Directus.map_slug posts = Ok (map slug_of posts).
Proof.
  induction posts as [|p r IH]; cbn [forallb Directus.map_slug map].
  - reflexivity.
  - intros [Hp Hr]%andb_prop. rewrite (IH Hr). unfold slug_of.
    destruct p; cbn in Hp |- *; try discriminate; reflexivity.
Qed.

Lemma getAllSlugs_run (env : Env) (w : World) (s : State) :
  exists s',
    Directus.getAllSlugs env w s
    = (Ok match network w (Directus.getAllSlugs_request env) with
          | Throw _ => []
          | Ok resp =>
              if resp_ok resp then
                match resp_json resp with
                | Throw _ => []
                | Ok data =>
                    match get_prop data "data" with
                    | Throw _ => []
                    | Ok d =>
                        match Directus.optional_map_slug d with
                        | Ok l => l
                        | Throw _ => []
                        end
                    end
                end
              else []
          end, s').
Proof.
  unfold Directus.getAllSlugs. run_monad.
  destruct (network w _) as [resp|e]; cbn; [|eauto].
  destruct (resp_ok resp); cbn; [|eauto].
  destruct (resp_json resp) as [data|e]; cbn; [|eauto].
  destruct (get_prop data "data") as [d|e]; cbn; [|eauto].
  destruct (Directus.optional_map_slug d); cbn; eauto.
Qed.

(** C7.  [getAllSlugs] never raises.  When the CMS answers successfully
    with a [data] array of items, the result is the items' [slug] values in
    the order of that array; when [fetch] fails, the status is not a
    success status, the body is not JSON, or the JSON has no [data] array,
    the result is the empty sequence. *)
Theorem getAllSlugs_ordered_or_empty (env : Env) (w : World) (s : State) :
  exists l s',
    Directus.getAllSlugs env w s = (Ok l, s') /\
    (forall resp body posts,
        network w (Directus.getAllSlugs_request env) = Ok resp ->
        resp_ok resp = true ->
        resp_json resp = Ok (JObject body) ->
        assoc (lit "data") body = Some (JArray posts) ->
        forallb (fun p => negb (is_nullish p)) posts = true ->
        l = map slug_of posts) /\
    (forall e,
        network w (Directus.getAllSlugs_request env) = Throw e -> l = []) /\
    (forall resp,
        network w (Directus.getAllSlugs_request env) = Ok resp ->
        resp_ok resp = false -> l = []) /\
    (forall resp e,
        network w (Directus.getAllSlugs_request env) = Ok resp ->
        resp_json resp = Throw e -> l = []) /\
    (forall resp data,
        network w (Directus.getAllSlugs_request env) = Ok resp ->
        resp_json resp = Ok data ->
        (forall posts, get_prop data "data" <> Ok (JArray posts)) ->
        l = []).
Proof.
  destruct (getAllSlugs_run env w s) as (s' & Hrun).
  eexists. exists s'. split; [exact Hrun|].
  split; [|split; [|split; [|split]]].
  - intros resp body posts -> -> -> Hdata Hposts.
    unfold get_prop. cbv beta iota. rewrite Hdata.
    cbn [Directus.optional_map_slug].
    now rewrite (map_slug_non_nullish _ Hposts).
  - intros e ->. reflexivity.
  - intros resp -> ->. reflexivity.
  - intros resp e -> ->. now destruct (resp_ok resp).
  - intros resp data -> -> Hshape. destruct (resp_ok resp); [|reflexivity].
    destruct (get_prop data "data") as [d|e]; [|reflexivity].
    destruct d; cbn; try reflexivity.
    exfalso. eapply Hshape. reflexivity.
Qed.

Lemma getAllSlugs_ordered_or_empty_witness :
  (exists s',
     Directus.getAllSlugs no_env
       (world_cms [post_of_slug (lit "hello-world"); post_of_slug (lit "sample")])
       init_state
     = (Ok [JString (lit "hello-world"); JString (lit "sample")], s')) /\
  (exists s', Directus.getAllSlugs no_env world_down init_state = (Ok [], s')) /\
  (exists s', Directus.getAllSlugs no_env world_page_hi init_state = (Ok [], s')).
Proof.
  split; [|split].
  - destruct (getAllSlugs_ordered_or_empty no_env
                (world_cms [post_of_slug (lit "hello-world");
                            post_of_slug (lit "sample")]) init_state)
      as (l & s' & Hrun & Hok & _).
    exists s'. rewrite Hrun. f_equal. f_equal.
    exact (Hok _ _ _ eq_refl eq_refl eq_refl eq_refl eq_refl).
  - destruct (getAllSlugs_ordered_or_empty no_env world_down init_state)
      as (l & s' & Hrun & _ & Hdown & _).
    exists s'. rewrite Hrun. f_equal. f_equal.
    exact (Hdown _ eq_refl).
  - destruct (getAllSlugs_ordered_or_empty no_env world_page_hi init_state)
      as (l & s' & Hrun & _ & _ & _ & Hjson & _).
    exists s'. rewrite Hrun. f_equal. f_equal.
    exact (Hjson _ _ eq_refl eq_refl).
Defined.

(** ** The revalidation route *)

Lemma get_prop_Ok_any (v x : JsValue) (k k' : string) :
  get_prop v k = Ok x -> exists y, get_prop v k' = Ok y.
Proof. destruct v; cbn; intros H; try discriminate; eauto. Qed.

Lemma revalidate_POST_run (w : World) (request : NextRequest) (s : State)
    (body slug : JsValue) :
  request_json request = Ok body ->
  get_prop body "slug" = Ok slug ->
  Part001.POST w request s
  = try_catch
      (if negb (truthy slug) then ret Part001.missing_slug_response
       else
         lift (ToString slug) ;;
         console_log [LStr (lit "[Revalidation] Triggered for slug: "
                              ++ js_ToString slug)] ;;
         revalidatePath w (Part001.isr_path slug) ;;
         revalidatePath w (Part001.isr_ondemand_path slug) ;;
         console_log [LStr (lit "[Revalidation] Completed for slug: "
                              ++ js_ToString slug)] ;;
         ts <- Date_toISOString w ;;
         ret (Part001.success_response slug ts))
      (fun error =>
         console_error [LStr (lit "[Revalidation] Error:"); LThrown error] ;;
         ret (Part001.failure_response error)) s.
Proof.
  intros Hbody Hslug.
  destruct (get_prop_Ok_any body "slug" "secret" Hslug) as (secret & Hsecret).
  unfold Part001.POST, try_catch, bind at 1 2 3, lift.
  rewrite Hbody, Hslug, Hsecret. reflexivity.
Qed.

Lemma revalidate_POST_throw (w : World) (request : NextRequest) (s : State)
    (body : JsValue) (e : Thrown) :
  request_json request = Ok body ->
  get_prop body "slug" = Throw e ->
  Part001.POST w request s
  = (console_error [LStr (lit "[Revalidation] Error:"); LThrown e] ;;
     ret (Part001.failure_response e)) s.
Proof.
  intros Hbody Hslug.
  unfold Part001.POST, try_catch, bind at 1 2, lift.
  rewrite Hbody, Hslug. reflexivity.
Qed.

(** C4.  A POST to the revalidation route whose body carries the slug
    [sample] is answered, when the platform accepts the two invalidations,
    with status 200 and a body whose [success] is [true], whose
    [revalidated] list is exactly [/blog/isr/sample] and
    [/blog/isr-ondemand/sample], and whose [timestamp] is the ISO rendering
    of the clock; those two paths, in that order, are what was asked of
    [revalidatePath]. *)
Theorem revalidate_sample_confirms_two_paths (w : World)
    (request : NextRequest) (body : JsValue) (s : State) :
  request_json request = Ok body ->
  get_prop body "slug" = Ok (JString (lit "sample")) ->
  revalidatePath_outcome w (lit "/blog/isr/sample") = None ->
  revalidatePath_outcome w (lit "/blog/isr-ondemand/sample") = None ->
  exists resp s',
    Part001.POST w request s = (Ok resp, s') /\
    http_status resp = 200 /\
    get_prop (http_body resp) "success" = Ok (JBool true) /\
    get_prop (http_body resp) "slug" = Ok (JString (lit "sample")) /\
    get_prop (http_body resp) "revalidated"
    = Ok (JArray [JString (lit "/blog/isr/sample");
                  JString (lit "/blog/isr-ondemand/sample")]) /\
    get_prop (http_body resp) "timestamp"
    = Ok (JString (toISOString w (clock w (ticks s)))) /\
    revalidated s'
    = revalidated s ++ [lit "/blog/isr/sample"; lit "/blog/isr-ondemand/sample"].
Proof.
  intros Hbody Hslug H1 H2.
  rewrite (revalidate_POST_run w request s Hbody Hslug).
  unfold Part001.isr_path, Part001.isr_ondemand_path.
  cbn [truthy lit negb js_ToString].
  run_monad.
  change (revalidatePath_outcome w _) with
    (revalidatePath_outcome w (lit "/blog/isr/sample")) at 1.
  rewrite H1. cbn.
  change (revalidatePath_outcome w _) with
    (revalidatePath_outcome w (lit "/blog/isr-ondemand/sample")) at 1.
  rewrite H2. cbn.
  do 2 eexists. split; [reflexivity|]. cbn.
  rewrite <- app_assoc. repeat split; reflexivity.
Qed.

Lemma revalidate_sample_confirms_two_paths_witness :
  exists resp s',
    Part001.POST world_down (request_of sample_body) init_state = (Ok resp, s') /\
    http_status resp = 200 /\
    get_prop (http_body resp) "revalidated"
    = Ok (JArray [JString (lit "/blog/isr/sample");
                  JString (lit "/blog/isr-ondemand/sample")]).
Proof.
  destruct (@revalidate_sample_confirms_two_paths world_down
              (request_of sample_body) sample_body init_state
              eq_refl eq_refl eq_refl eq_refl)
    as (resp & s' & Hrun & Hstatus & _ & _ & Hpaths & _).
  exists resp, s'. repeat split; assumption.
Defined.

(** C9.  Two POSTs to the revalidation route whose bodies have the same
    [slug] get the same response and leave the same trace, whatever their
    [secret] fields hold and whether or not they have one. *)
Theorem revalidate_ignores_secret (w : World) (request1 request2 : NextRequest)
    (body1 body2 : JsValue) (s : State) :
  request_json request1 = Ok body1 ->
  request_json request2 = Ok body2 ->
  get_prop body1 "slug" = get_prop body2 "slug" ->
  Part001.POST w request1 s = Part001.POST w request2 s.
Proof.
  intros H1 H2 Hslug.
  destruct (get_prop body1 "slug") as [slug|e] eqn:Hs1.
  - rewrite (revalidate_POST_run w request1 s H1 Hs1).
    rewrite (revalidate_POST_run w request2 s H2 (eq_sym Hslug)).
    reflexivity.
  - rewrite (revalidate_POST_throw w request1 s H1 Hs1).
    rewrite (revalidate_POST_throw w request2 s H2 (eq_sym Hslug)).
    reflexivity.
Qed.

Lemma revalidate_ignores_secret_witness :
  Part001.POST world_down (request_of sample_body) init_state
  = Part001.POST world_down
      (request_of (sample_body_with_secret (lit "not-the-secret"))) init_state
  /\
  Part001.POST world_down (request_of (sample_body_with_secret (lit "s3cr3t")))
    init_state
  = Part001.POST world_down
      (request_of (sample_body_with_secret (lit "not-the-secret"))) init_state.
Proof.
  split.
  - exact (@revalidate_ignores_secret world_down
             (request_of sample_body)
             (request_of (sample_body_with_secret (lit "not-the-secret")))
             sample_body (sample_body_with_secret (lit "not-the-secret"))
             init_state eq_refl eq_refl eq_refl).
  - exact (@revalidate_ignores_secret world_down
             (request_of (sample_body_with_secret (lit "s3cr3t")))
             (request_of (sample_body_with_secret (lit "not-the-secret")))
             (sample_body_with_secret (lit "s3cr3t"))
             (sample_body_with_secret (lit "not-the-secret"))
             init_state eq_refl eq_refl eq_refl).
Defined.

(** ** The metrics route *)

Lemma bind_lift_Ok {A B} (a : A) (k : A -> M B) (s : State) :
  bind (lift (Ok a)) k s = k a s.
Proof. reflexivity. Qed.

Lemma bind_lift_Throw {A B} (e : Thrown) (k : A -> M B) (s : State) :
  bind (lift (Throw e)) k s = (Throw e, s).
Proof. reflexivity. Qed.


Section MetricsRoute.
Variable w : World.
Variable measure : JsValue -> M MetricsResult.
Variable request : NextRequest.
Variable s : State.





End MetricsRoute.

(** Whatever [measurePageMetrics] does, the route answers, and with one of
    its three status codes. *)
Lemma metrics_POST_total (w : World) (measure : JsValue -> M MetricsResult)
    (request : NextRequest) (s : State) :
  (exists resp s',
     SrcApiMetricsRoute.POST w measure request s = (Ok resp, s') /\
     (http_status resp = 200 \/ http_status resp = 400 \/ http_status resp = 500))
  /\
  (exists resp s',
     Part000.POST w measure request s = (Ok resp, s') /\
     (http_status resp = 200 \/ http_status resp = 400 \/ http_status resp = 500)).
Proof.
  unfold SrcApiMetricsRoute.POST, Part000.POST, Part000.testUrl_of, try_catch.
  destruct (request_json request) as [body|e];
    rewrite ?bind_lift_Ok, ?bind_lift_Throw; cbv beta iota;
    [|split; do 2 eexists; (split; [reflexivity|cbn; auto])].
  destruct (get_prop body "url") as [u|e];
    rewrite ?bind_lift_Ok, ?bind_lift_Throw; cbv beta iota;
    [|split; do 2 eexists; (split; [reflexivity|cbn; auto])].
  destruct (truthy u); cbv beta iota;
    [|split; do 2 eexists; (split; [reflexivity|cbn; auto])].
  unfold attempt, new_URL, bind, console_log, console_write.
  destruct (URL_parse w (js_ToString u)) as [parsed|]; cbn;
    [|split; do 2 eexists; (split; [reflexivity|cbn; auto])].
  split.
  - destruct (measure u _) as [[m|e] s2]; cbn;
      do 2 eexists; (split; [reflexivity|cbn; auto]).
  - destruct (Part000.same_host _ _); cbn;
      destruct (measure _ _) as [[m|e] s2]; cbn;
      do 2 eexists; (split; [reflexivity|cbn; auto]).
Qed.






(** * Further properties of the code *)

(** ** src/lib/directus.ts *)

Lemma jsstring_eqb_refl (a : jsstring) : jsstring_eqb a a = true.
Proof. unfold jsstring_eqb. destruct (jsstring_eq_dec a a); congruence. Qed.

Lemma jsstring_eqb_eq (a b : jsstring) : jsstring_eqb a b = true <-> a = b.
Proof.
  unfold jsstring_eqb. destruct (jsstring_eq_dec a b); split; congruence.
Qed.

Lemma jsstring_eqb_neq (a b : jsstring) : a <> b -> jsstring_eqb a b = false.
Proof. unfold jsstring_eqb. destruct (jsstring_eq_dec a b); congruence. Qed.

(** X1.  [isDirectusConfigured] answers [true] in every environment:
    [DIRECTUS_URL] falls back to the built-in address whenever the variable
    is unset or empty, so it is never the empty string. *)
Theorem isDirectusConfigured_always_true (env : Env) :
  Directus.isDirectusConfigured env = true /\ Directus.DIRECTUS_URL env <> [].
Proof.
  unfold Directus.isDirectusConfigured, Directus.DIRECTUS_URL, env_or.
  destruct (env_DIRECTUS_URL env) as [[|c r]|]; cbn [str_truthy andb lit];
    (split; [rewrite jsstring_eqb_neq by discriminate; reflexivity
            | discriminate]).
Qed.

Lemma getAllSlugs_requests (env : Env) (w : World) (s : State) :
  requests (snd (Directus.getAllSlugs env w s))
  = requests s ++ [Directus.getAllSlugs_request env].
Proof.
  unfold Directus.getAllSlugs. run_monad.
  destruct (network w _) as [resp|e]; cbn; [|reflexivity].
  destruct (resp_ok resp); cbn; [|reflexivity].
  destruct (resp_json resp) as [data|e]; cbn; [|reflexivity].
  destruct (get_prop data "data") as [d|e]; cbn; [|reflexivity].
  destruct (Directus.optional_map_slug d); reflexivity.
Qed.

Lemma getPost_request_headers (env : Env) (slug : jsstring)
    (opts : option CacheOptions) :
  req_headers (Directus.getPost_request env slug opts)
  = Directus.directus_headers env.
Proof. destruct opts as [[mode|[k|]]|]; reflexivity. Qed.

Lemma directus_headers_lookup (env : Env) :
  assoc (lit "Content-Type") (Directus.directus_headers env)
  = Some (lit "application/json") /\
  assoc (lit "Authorization") (Directus.directus_headers env)
  = match Directus.DIRECTUS_TOKEN env with
    | [] => None
    | c :: r => Some (lit "Bearer " ++ c :: r)
    end.
Proof.
  unfold Directus.directus_headers.
  destruct (Directus.DIRECTUS_TOKEN env) as [|c r]; split; reflexivity.
Qed.

(** X2.  The one request [getAllSlugs] sends and the one request [getPost]
    sends both carry [Content-Type: application/json]; they carry an
    [Authorization] header exactly when [DIRECTUS_TOKEN] is set and
    non-empty, and then its value is [Bearer ] followed by the token. *)
Theorem directus_requests_authorization (env : Env) (w : World)
    (slug : jsstring) (opts : option CacheOptions) (s : State) :
  exists rq1 rq2,
    requests (snd (Directus.getAllSlugs env w s)) = requests s ++ [rq1] /\
    requests (snd (Directus.getPost env w slug opts s)) = requests s ++ [rq2] /\
    req_headers rq1 = req_headers rq2 /\
    assoc (lit "Content-Type") (req_headers rq1) = Some (lit "application/json") /\
    assoc (lit "Authorization") (req_headers rq1)
    = match env_DIRECTUS_TOKEN env with
      | Some (c :: r) => Some (lit "Bearer " ++ c :: r)
      | _ => None
      end.
Proof.
  exists (Directus.getAllSlugs_request env),
    (Directus.getPost_request env slug opts).
  split; [apply getAllSlugs_requests|].
  split; [apply getPost_requests|].
  rewrite getPost_request_headers.
  split; [reflexivity|].
  destruct (directus_headers_lookup env) as [Hct Hauth].
  split; [exact Hct|].
  cbn [Directus.getAllSlugs_request req_headers]. rewrite Hauth.
  unfold Directus.DIRECTUS_TOKEN, env_or.
  destruct (env_DIRECTUS_TOKEN env) as [[|c r]|]; reflexivity.
Qed.

(** X3.  Whatever happens afterwards, [getAllSlugs] sends exactly one
    request: to [/items/blogs?fields=slug] under the configured base
    address (the built-in one when [DIRECTUS_URL] is unset or empty), with
    the [no-store] cache mode and no [next] option. *)
Theorem getAllSlugs_single_fresh_request (env : Env) (w : World) (s : State) :
  exists rq,
    requests (snd (Directus.getAllSlugs env w s)) = requests s ++ [rq] /\
    req_url rq
    = match env_DIRECTUS_URL env with
      | Some (c :: r) => c :: r
      | _ => lit "https://api.microheal.in"
      end ++ lit "/items/blogs?fields=slug" /\
    req_cache rq = Some cache_no_store /\
    req_next rq = None.
Proof.
  exists (Directus.getAllSlugs_request env).
  split; [apply getAllSlugs_requests|].
  repeat split.
Qed.

Lemma map_slug_nullish (posts : list JsValue) :
  existsb is_nullish posts = true ->
  exists e, Directus.map_slug posts = Throw e.
Proof.
  induction posts as [|p r IH]; cbn [existsb Directus.map_slug].
  - discriminate.
  - intros [Hp|Hr]%orb_prop.
    + destruct p; cbn in Hp |- *; try discriminate; eauto.
    + destruct (IH Hr) as (e & ->).
      destruct (get_prop p "slug"); eauto.
Qed.

(** X4.  One [null] among the items of a successful CMS answer makes
    [getAllSlugs] return the empty sequence: reading [slug] of that item
    throws inside [map], and the [catch] clause discards the slugs of all
    the other items too. *)
Theorem getAllSlugs_null_item_discards_all (env : Env) (w : World) (s : State)
    (resp : Response) (body : list (jsstring * JsValue)) (posts : list JsValue) :
  network w (Directus.getAllSlugs_request env) = Ok resp ->
  resp_ok resp = true ->
  resp_json resp = Ok (JObject body) ->
  assoc (lit "data") body = Some (JArray posts) ->
  existsb is_nullish posts = true ->
  exists s', Directus.getAllSlugs env w s = (Ok [], s').
Proof.
  intros Hnet Hok Hjson Hdata Hnull.
  destruct (getAllSlugs_run env w s) as (s' & Hrun).
  exists s'. rewrite Hrun, Hnet, Hok, Hjson.
  unfold get_prop. cbv beta iota. rewrite Hdata.
  cbn [Directus.optional_map_slug].
  destruct (map_slug_nullish posts Hnull) as (e & ->). reflexivity.
Qed.

Lemma getAllSlugs_null_item_discards_all_witness :
  exists s', Directus.getAllSlugs no_env world_cms_with_null init_state = (Ok [], s').
Proof.
  exact (@getAllSlugs_null_item_discards_all no_env world_cms_with_null
           init_state _ _ _ eq_refl eq_refl eq_refl eq_refl eq_refl).
Defined.

(** X5.  What [getPost] returns is either [null] or a truthy value: it
    never returns [undefined], [0], [false] or the empty string, so the
    callers' test [!post] is true exactly for [null]. *)
Theorem getPost_null_or_truthy (env : Env) (w : World) (slug : jsstring)
    (opts : option CacheOptions) (s : State) :
  exists v s',
    Directus.getPost env w slug opts s = (Ok v, s') /\
    (v = JNull \/ truthy v = true) /\
    (truthy v = false <-> v = JNull).
Proof.
  destruct (getPost_run env w slug opts s) as (s' & Hrun).
  eexists. exists s'. split; [exact Hrun|].
  assert (H : forall v, v = JNull \/ truthy v = true ->
                        (v = JNull \/ truthy v = true) /\
                        (truthy v = false <-> v = JNull)).
  { intros v [->|Hv]; (split; [auto|]); split; auto; try congruence.
    intros ->. discriminate. }
  apply H.
  destruct (network w _) as [resp|e]; [|now left].
  destruct (resp_ok resp); [|now left].
  destruct (resp_json resp) as [data|e]; [|now left].
  destruct (get_prop data "data") as [d|e]; [|now left].
  destruct (truthy (Directus.optional_index0 d)) eqn:Ht; [now right|now left].
Qed.


(** ** The metrics prober: size, preview and headers *)

Lemma Blob_size_bounds_upto (n : nat) :
  forall s : jsstring, (length s <= n)%nat ->
    Z.of_nat (length s) <= Blob_size s <= 3 * Z.of_nat (length s).
Proof.
  induction n as [|n IH]; intros [|c r] Hlen;
    cbn [Blob_size length] in *; try lia.
  assert (Hr := IH r ltac:(lia)).
  destruct (c <? 128)%N; [lia|].
  destruct (c <? 2048)%N; [lia|].
  destruct (is_high_surrogate c); [|lia].
  destruct r as [|d r']; [cbn [length]; lia|].
  destruct (is_low_surrogate d); [|lia].
  assert (Hr' := IH r' ltac:(cbn [length] in Hlen; lia)).
  cbn [length] in *. lia.
Qed.

Lemma Blob_size_ascii (s : jsstring) :
  forallb (fun c => (c <? 128)%N) s = true ->
  Blob_size s = Z.of_nat (length s).
Proof.
  induction s as [|c r IH]; cbn [forallb Blob_size length].
  - reflexivity.
  - intros [Hc Hr]%andb_prop. rewrite Hc, (IH Hr). lia.
Qed.

(** X6.  The size [new Blob([html]).size] reported as [htmlSize] is at
    least the number of UTF-16 code units of the body and at most three
    times that number, and equals it when the body is all ASCII. *)
Theorem Blob_size_between_length_and_triple (html : jsstring) :
  Z.of_nat (length html) <= Blob_size html <= 3 * Z.of_nat (length html) /\
  (forallb (fun c => (c <? 128)%N) html = true ->
   Blob_size html = Z.of_nat (length html)).
Proof.
  split; [apply (@Blob_size_bounds_upto (length html)); lia|].
  apply Blob_size_ascii.
Qed.

Lemma Blob_size_between_length_and_triple_witness :
  Blob_size page_hi = 10.
Proof.
  destruct (Blob_size_between_length_and_triple page_hi) as [_ Hascii].
  rewrite (Hascii eq_refl). reflexivity.
Defined.

(** [trimStart] removes a prefix, [trimEnd] a suffix. *)
Lemma trimStart_suffix (s : jsstring) :
  exists pre, s = pre ++ trimStart s.
Proof.
  induction s as [|c r (pre & IH)]; cbn [trimStart].
  - exists []. reflexivity.
  - destruct (is_whitespace c).
    + exists (c :: pre). cbn. now f_equal.
    + exists []. reflexivity.
Qed.

Lemma trimEnd_prefix (s : jsstring) :
  exists post, s = trimEnd s ++ post.
Proof.
  unfold trimEnd. destruct (trimStart_suffix (rev s)) as (pre & H).
  exists (rev pre). apply (f_equal (@rev code_unit)) in H.
  rewrite rev_involutive, rev_app_distr in H. exact H.
Qed.

Lemma trim_infix (s : jsstring) :
  exists pre post, s = pre ++ trim s ++ post.
Proof.
  unfold trim.
  destruct (trimStart_suffix s) as (pre & Hpre).
  destruct (trimEnd_prefix (trimStart s)) as (post & Hpost).
  exists pre, post. rewrite <- Hpost. exact Hpre.
Qed.

Lemma trim_head (s : jsstring) (c : code_unit) (r : jsstring) :
  trim s = c :: r -> is_whitespace c = false.
Proof.
  unfold trim. intros H.
  destruct (trimEnd_prefix (trimStart s)) as (post & Hpost).
  rewrite H in Hpost. cbn in Hpost.
  eapply trimStart_head. exact Hpost.
Qed.

Lemma trim_last (s pre : jsstring) (c : code_unit) :
  trim s = pre ++ [c] -> is_whitespace c = false.
Proof.
  unfold trim, trimEnd. intros H.
  apply (f_equal (@rev code_unit)) in H.
  rewrite rev_involutive, rev_app_distr in H. cbn in H.
  eapply trimStart_head. exact H.
Qed.

(** No whitespace code unit of [collapse_from] is followed by another. *)
Lemma collapse_from_no_run (s : jsstring) :
  forall in_run l1 a b l2,
    collapse_from in_run s = l1 ++ a :: b :: l2 ->
    is_whitespace a = true -> is_whitespace b = false.
Proof.
  assert (Hhead : forall s c r,
             collapse_from true s = c :: r -> is_whitespace c = false).
  { clear s. induction s as [|x t IH]; cbn [collapse_from]; intros c r H.
    - discriminate.
    - destruct (is_whitespace x) eqn:Hx; [eauto|].
      injection H as <- _. exact Hx. }
  induction s as [|x t IH]; intros in_run l1 a b l2 H Ha;
    cbn [collapse_from] in H.
  - destruct l1; discriminate.
  - destruct (is_whitespace x) eqn:Hx.
    + destruct in_run; [eauto|].
      destruct l1 as [|y l1]; cbn in H.
      * injection H as _ H. eapply Hhead. exact H.
      * injection H as _ H. eauto.
    + destruct l1 as [|y l1]; cbn in H.
      * injection H as <- H. congruence.
      * injection H as _ H. eauto.
Qed.

(** X7.  The preview is whitespace-normalised, whatever the body: every
    whitespace code unit in it is the plain space U+0020 (no tab, newline
    or no-break space survives), no two whitespace code units are
    adjacent, and it neither starts nor ends with whitespace. *)
Theorem htmlPreview_of_normalised (html : jsstring) :
  (forall c, In c (htmlPreview_of html) -> is_whitespace c = true -> c = space) /\
  (forall l1 a b l2,
      htmlPreview_of html = l1 ++ a :: b :: l2 ->
      is_whitespace a = true -> is_whitespace b = false) /\
  (forall c r, htmlPreview_of html = c :: r -> is_whitespace c = false) /\
  (forall pre c, htmlPreview_of html = pre ++ [c] -> is_whitespace c = false).
Proof.
  unfold htmlPreview_of, replace_whitespace_runs.
  set (t := collapse_from false (substring0 300 html)).
  destruct (trim_infix t) as (pre & post & Ht).
  split; [|split; [|split]].
  - intros c Hin Hws.
    eapply (collapse_from_only_spaces (substring0 300 html) false); [|exact Hws].
    fold t. rewrite Ht. apply in_or_app. right. apply in_or_app. now left.
  - intros l1 a b l2 H Ha.
    eapply (collapse_from_no_run (substring0 300 html) false
              (pre ++ l1) a b (l2 ++ post)); [|exact Ha].
    fold t. rewrite Ht, H. now rewrite <- !app_assoc.
  - intros c r. apply trim_head.
  - intros p c. apply trim_last.
Qed.

(** X8.  The preview keeps the text: deleting all whitespace from the
    preview gives the same code units, in the same order, as deleting all
    whitespace from the first 300 code units of the body. *)
Theorem htmlPreview_of_preserves_text (html : jsstring) :
  filter (fun c => negb (is_whitespace c)) (htmlPreview_of html)
  = filter (fun c => negb (is_whitespace c)) (substring0 300 html).
Proof. apply htmlPreview_of_keeps_text. Qed.


Lemma collapse_from_normal (s : jsstring) :
  forall b, normal_from b (collapse_from b s) = true.
Proof.
  induction s as [|c r IH]; intros b; cbn [collapse_from normal_from].
  - reflexivity.
  - destruct (is_whitespace c) eqn:Hc.
    + destruct b; [apply IH|].
      cbn [normal_from]. change (is_whitespace space) with true.
      cbn. apply IH.
    + cbn [normal_from]. rewrite Hc. apply IH.
Qed.

Lemma normal_collapse_from_id (s : jsstring) :
  forall b, normal_from b s = true -> collapse_from b s = s.
Proof.
  induction s as [|c r IH]; intros b; cbn [collapse_from normal_from].
  - reflexivity.
  - destruct (is_whitespace c).
    + intros [[Hb Hc]%andb_prop Hr]%andb_prop.
      destruct b; [discriminate|].
      apply N.eqb_eq in Hc. subst c. f_equal. now apply IH.
    + intros Hr. f_equal. now apply IH.
Qed.

Lemma normal_from_weaken (s : jsstring) (b : bool) :
  normal_from b s = true -> normal_from false s = true.
Proof.
  destruct s as [|c r]; cbn [normal_from]; [reflexivity|].
  destruct (is_whitespace c); [|auto].
  intros [[_ Hc]%andb_prop Hr]%andb_prop. now rewrite Hc, Hr.
Qed.

Lemma normal_from_app (l1 l2 : jsstring) :
  forall b, normal_from b (l1 ++ l2) = true ->
            normal_from b l1 = true /\ normal_from false l2 = true.
Proof.
  induction l1 as [|c r IH]; intros b; cbn [app normal_from].
  - intros H. split; [reflexivity|]. eapply normal_from_weaken; eauto.
  - destruct (is_whitespace c).
    + intros [Hc Hr]%andb_prop. destruct (IH _ Hr) as [H1 H2].
      rewrite Hc, H1. auto.
    + apply IH.
Qed.

Lemma trimStart_id (s : jsstring) :
  (forall c r, s = c :: r -> is_whitespace c = false) -> trimStart s = s.
Proof.
  destruct s as [|c r]; cbn [trimStart]; [reflexivity|].
  intros H. now rewrite (H c r eq_refl).
Qed.

Lemma trimEnd_id (s : jsstring) :
  (forall pre c, s = pre ++ [c] -> is_whitespace c = false) -> trimEnd s = s.
Proof.
  intros H. unfold trimEnd. rewrite trimStart_id; [apply rev_involutive|].
  intros c r Hrev. apply (H (rev r) c).
  apply (f_equal (@rev code_unit)) in Hrev.
  now rewrite rev_involutive in Hrev.
Qed.

(** X9.  Taking the preview of a preview changes nothing. *)
Theorem htmlPreview_of_idempotent (html : jsstring) :
  htmlPreview_of (htmlPreview_of html) = htmlPreview_of html.
Proof.
  set (p := htmlPreview_of html).
  assert (Hlen : (length p <= 300)%nat) by apply htmlPreview_of_length.
  assert (Hnormal : normal_from false p = true).
  { unfold p, htmlPreview_of, replace_whitespace_runs.
    destruct (trim_infix (collapse_from false (substring0 300 html)))
      as (pre & post & Ht).
    pose proof (collapse_from_normal (substring0 300 html) false) as Hn.
    rewrite Ht in Hn.
    apply normal_from_app in Hn as [_ Hn].
    apply normal_from_app in Hn as [Hn _]. exact Hn. }
  assert (Hhead : forall c r, p = c :: r -> is_whitespace c = false).
  { intros c r. unfold p, htmlPreview_of. apply trim_head. }
  assert (Hlast : forall pre c, p = pre ++ [c] -> is_whitespace c = false).
  { intros pre c. unfold p, htmlPreview_of. apply trim_last. }
  unfold htmlPreview_of at 1, replace_whitespace_runs, substring0.
  rewrite firstn_all2 by exact Hlen.
  rewrite (@normal_collapse_from_id p false Hnormal).
  unfold trim. rewrite (@trimStart_id p Hhead). apply trimEnd_id. exact Hlast.
Qed.

(** X10.  For the returning variant an HTTP error status is not a failed
    probe: a response with status 400 or above is measured like any other
    (its status, size and preview are reported), and the [error] field is
    [HTTP <status>: <statusText>]; below 400 there is no [error] field.
    The raising variant never sets [error] on a returned result. *)
Theorem measurePageMetrics_http_error_status (env : Env) (w : World)
    (target : JsValue) (s : State) (response : Response) (html : jsstring) :
  (probe_outcome env w target = Ok (response, html) ->
   exists r s',
     Part002.measurePageMetrics env w target s = (Ok r, s') /\
     status r = resp_status response /\
     htmlSize r = Blob_size html /\
     htmlPreview r = htmlPreview_of html /\
     error r
     = if 400 <=? resp_status response
       then Some (lit "HTTP " ++ dec (resp_status response) ++ lit ": "
                    ++ resp_statusText response)
       else None) /\
  (forall r s',
     SrcLibMetrics.measurePageMetrics w target s = (Ok r, s') -> error r = None).
Proof.
  split.
  - unfold probe_outcome, Part002.measurePageMetrics, Part002.on_error,
      success_result.
    run_monad.
    destruct (Part002.url_startsWith_slash target) as [[rel u]|e]; cbn;
      [|discriminate].
    destruct (network w _) as [resp|e]; cbn; [|discriminate].
    destruct (resp_text resp) as [body|e]; cbn; [|discriminate].
    intros [= -> ->]. do 2 eexists. split; [reflexivity|]. cbn.
    repeat split; reflexivity.
  - unfold SrcLibMetrics.measurePageMetrics, SrcLibMetrics.on_error,
      success_result.
    run_monad.
    destruct (network w _) as [resp|e]; cbn; [|discriminate].
    destruct (resp_text resp) as [body|e]; cbn; [|discriminate].
    intros r s' [= <- _]. reflexivity.
Qed.

Lemma measurePageMetrics_http_error_status_witness :
  exists r s',
    Part002.measurePageMetrics no_env world_not_found hello_url init_state
    = (Ok r, s') /\
    status r = 404 /\ htmlSize r = 12 /\
    error r = Some (lit "HTTP 404: Not Found").
Proof.
  destruct (@measurePageMetrics_http_error_status no_env world_not_found
              hello_url init_state
              {| resp_status := 404;
                 resp_statusText := lit "Not Found";
                 resp_headers := [(lit "content-type", lit "text/html")];
                 resp_text := Ok (lit "<h1>404</h1>");
                 resp_json := Throw (ErrorObj (lit "Unexpected token < in JSON")) |}
              (lit "<h1>404</h1>")) as [Hret _].
  destruct (Hret eq_refl) as (r & s' & Hrun & Hst & Hsize & _ & Herr).
  exists r, s'. split; [exact Hrun|].
  split; [exact Hst|]. split; [rewrite Hsize; reflexivity|].
  rewrite Herr. reflexivity.
Defined.

(** The request trace of the returning variant. *)
Lemma Part002_measure_trace (env : Env) (w : World)
    (target : JsValue) (s : State) :
  exists r s',
    Part002.measurePageMetrics env w target s = (Ok r, s') /\
    url r = target /\
    match target with
    | JString u =>
        exists rq,
          requests s' = requests s ++ [rq] /\
          req_url rq
          = (if startsWith (lit "/") u
             then match env_VERCEL_URL env with
                  | Some (c :: v) => lit "https://" ++ c :: v
                  | _ => lit "http://localhost:3000"
                  end ++ u
             else u) /\
          req_cache rq = Some cache_no_store /\
          req_redirect rq = Some (lit "follow")
    | _ => requests s' = requests s
    end.
Proof.
  unfold Part002.measurePageMetrics, Part002.on_error, success_result.
  run_monad.
  destruct target as [| |b|z|u|items|fields]; cbn;
    try (do 2 eexists; split; [reflexivity|]; split; reflexivity).
  unfold Part002.fetchUrl_of, Part002.own_origin.
  destruct (network w _) as [resp|e]; cbn.
  - destruct (resp_text resp) as [body|e]; cbn;
      (do 2 eexists; split; [reflexivity|]; split; [reflexivity|]);
      (eexists; split; [reflexivity|]; cbn;
       destruct u as [|c u']; cbn; [|destruct (47 =? c)%N]; repeat split).
  - do 2 eexists. split; [reflexivity|]. split; [reflexivity|].
    eexists. split; [reflexivity|]. cbn.
    destruct u as [|c u']; cbn; [|destruct (47 =? c)%N]; repeat split.
Qed.

(** X11.  The returning variant sends exactly one request when the URL is
    a string and none otherwise.  A URL starting with [/] is fetched under
    the deployment's own origin ([https://] plus [VERCEL_URL], or
    [http://localhost:3000] when that variable is unset or empty), any
    other URL as given; the request bypasses the cache and follows
    redirects.  The [url] of the result is always the URL as given, never
    the resolved one. *)
Theorem measurePageMetrics_resolves_relative_url (env : Env) (w : World)
    (target : JsValue) (s : State) :
  exists r s',
    Part002.measurePageMetrics env w target s = (Ok r, s') /\
    url r = target /\
    match target with
    | JString u =>
        exists rq,
          requests s' = requests s ++ [rq] /\
          req_url rq
          = (if startsWith (lit "/") u
             then match env_VERCEL_URL env with
                  | Some (c :: v) => lit "https://" ++ c :: v
                  | _ => lit "http://localhost:3000"
                  end ++ u
             else u) /\
          req_cache rq = Some cache_no_store /\
          req_redirect rq = Some (lit "follow")
    | _ => requests s' = requests s
    end.
Proof. exact (Part002_measure_trace env w target s). Qed.



Lemma assoc_set_prop_same {A} (k : jsstring) (v : A) (l : list (jsstring * A)) :
  assoc k (set_prop k v l) = Some v.
Proof.
  induction l as [|[k' v'] r IH]; cbn [set_prop assoc].
  - now rewrite jsstring_eqb_refl.
  - destruct (jsstring_eqb k' k) eqn:E; cbn [assoc].
    + now rewrite jsstring_eqb_refl.
    + now rewrite E.
Qed.

Lemma assoc_set_prop_other {A} (k k0 : jsstring) (v : A)
    (l : list (jsstring * A)) :
  k0 <> k -> assoc k0 (set_prop k v l) = assoc k0 l.
Proof.
  intros Hne. induction l as [|[k' v'] r IH]; cbn [set_prop assoc].
  - now rewrite jsstring_eqb_neq by congruence.
  - destruct (jsstring_eqb k' k) eqn:E; cbn [assoc].
    + apply jsstring_eqb_eq in E. subst k'.
      now rewrite !jsstring_eqb_neq by congruence.
    + now rewrite IH.
Qed.

Lemma set_prop_keys {A} (k k0 : jsstring) (v : A) (l : list (jsstring * A)) :
  In k0 (map fst (set_prop k v l)) <-> k0 = k \/ In k0 (map fst l).
Proof.
  induction l as [|[k' v'] r IH]; cbn [set_prop map fst In].
  - intuition congruence.
  - destruct (jsstring_eqb k' k) eqn:E; cbn [map fst In].
    + apply jsstring_eqb_eq in E. subst k'. intuition congruence.
    + rewrite IH. intuition congruence.
Qed.

Lemma set_prop_NoDup {A} (k : jsstring) (v : A) (l : list (jsstring * A)) :
  NoDup (map fst l) -> NoDup (map fst (set_prop k v l)).
Proof.
  induction l as [|[k' v'] r IH]; cbn [set_prop map fst]; intros Hnd.
  - constructor; [intros []|constructor].
  - destruct (jsstring_eqb k' k) eqn:E; cbn [map fst].
    + apply jsstring_eqb_eq in E. now subst k'.
    + inversion Hnd as [|? ? Hnotin Hrest]; subst. constructor; [|auto].
      rewrite set_prop_keys. intros [->|Hin]; [|contradiction].
      now rewrite jsstring_eqb_refl in E.
Qed.

Lemma assoc_app {A} (k : jsstring) (l1 l2 : list (jsstring * A)) :
  assoc k (l1 ++ l2)
  = match assoc k l1 with Some v => Some v | None => assoc k l2 end.
Proof.
  induction l1 as [|[k' v'] r IH]; cbn [app assoc]; [reflexivity|].
  destruct (jsstring_eqb k' k); [reflexivity|exact IH].
Qed.

Lemma assign_header_assoc (key value k : jsstring)
    (acc : list (jsstring * jsstring)) :
  k <> lit "__proto__" ->
  assoc k (assign_header key value acc)
  = if jsstring_eqb key k then Some value else assoc k acc.
Proof.
  intros Hk. unfold assign_header.
  destruct (jsstring_eqb key (lit "__proto__")) eqn:Eproto.
  - apply jsstring_eqb_eq in Eproto. subst key.
    now rewrite jsstring_eqb_neq by congruence.
  - destruct (jsstring_eqb key k) eqn:E.
    + apply jsstring_eqb_eq in E. subst key. apply assoc_set_prop_same.
    + apply assoc_set_prop_other. intros ->.
      now rewrite jsstring_eqb_refl in E.
Qed.

Lemma assign_header_proto (key value : jsstring)
    (acc : list (jsstring * jsstring)) :
  assoc (lit "__proto__") (assign_header key value acc)
  = assoc (lit "__proto__") acc.
Proof.
  unfold assign_header.
  destruct (jsstring_eqb key (lit "__proto__")) eqn:Eproto; [reflexivity|].
  apply assoc_set_prop_other. intros <-.
  now rewrite jsstring_eqb_refl in Eproto.
Qed.

Lemma assign_header_NoDup (key value : jsstring)
    (acc : list (jsstring * jsstring)) :
  NoDup (map fst acc) -> NoDup (map fst (assign_header key value acc)).
Proof.
  unfold assign_header.
  destruct (jsstring_eqb key (lit "__proto__")); [auto|apply set_prop_NoDup].
Qed.

Lemma fold_assign_header_assoc (hs acc : list (jsstring * jsstring))
    (k : jsstring) :
  k <> lit "__proto__" ->
  assoc k (fold_left (fun a kv => assign_header (fst kv) (snd kv) a) hs acc)
  = match assoc k (rev hs) with Some v => Some v | None => assoc k acc end.
Proof.
  intros Hk. revert acc.
  induction hs as [|[hk hv] t IH]; intros acc; cbn [fold_left rev].
  - reflexivity.
  - rewrite IH, assoc_app. cbn [fst snd assoc].
    destruct (assoc k (rev t)); [reflexivity|].
    rewrite assign_header_assoc by exact Hk.
    now destruct (jsstring_eqb hk k).
Qed.

Lemma fold_assign_header_proto (hs acc : list (jsstring * jsstring)) :
  assoc (lit "__proto__")
    (fold_left (fun a kv => assign_header (fst kv) (snd kv) a) hs acc)
  = assoc (lit "__proto__") acc.
Proof.
  revert acc. induction hs as [|[hk hv] t IH]; intros acc; cbn [fold_left].
  - reflexivity.
  - rewrite IH. apply assign_header_proto.
Qed.

Lemma fold_assign_header_NoDup (hs acc : list (jsstring * jsstring)) :
  NoDup (map fst acc) ->
  NoDup (map fst
           (fold_left (fun a kv => assign_header (fst kv) (snd kv) a) hs acc)).
Proof.
  revert acc. induction hs as [|[hk hv] t IH]; intros acc Hnd; cbn [fold_left].
  - exact Hnd.
  - apply IH. now apply assign_header_NoDup.
Qed.

Lemma assoc_In {A} (k : jsstring) (l : list (jsstring * A)) :
  In k (map fst l) -> exists v, assoc k l = Some v /\ In (k, v) l.
Proof.
  induction l as [|[k' v'] r IH]; cbn [map fst In assoc]; [intros []|].
  intros Hin. destruct (jsstring_eqb k' k) eqn:E.
  - apply jsstring_eqb_eq in E. subst k'. eauto.
  - destruct Hin as [->|Hin]; [now rewrite jsstring_eqb_refl in E|].
    destruct (IH Hin) as (v & Hv & Hv'). eauto.
Qed.

(** X12.  The [headers] object built from the response has one entry per
    header name other than [__proto__], a name under which the assignment
    stores nothing; when a name is visited more than once the value visited
    last is the one kept; and every other name the response carries is a
    key of the object, with one of the values sent under that name. *)
Theorem collect_headers_last_value_wins (hs : list (jsstring * jsstring)) :
  NoDup (map fst (collect_headers hs)) /\
  assoc (lit "__proto__") (collect_headers hs) = None /\
  (forall k, k <> lit "__proto__" ->
     assoc k (collect_headers hs) = assoc k (rev hs)) /\
  (forall k, k <> lit "__proto__" -> In k (map fst hs) ->
     exists v, assoc k (collect_headers hs) = Some v /\ In (k, v) hs).
Proof.
  unfold collect_headers.
  assert (Hassoc : forall k, k <> lit "__proto__" ->
             assoc k (fold_left
                        (fun a kv => assign_header (fst kv) (snd kv) a) hs [])
             = assoc k (rev hs)).
  { intros k Hk. rewrite fold_assign_header_assoc by exact Hk.
    now destruct (assoc k (rev hs)). }
  split; [apply fold_assign_header_NoDup; constructor|].
  split; [now rewrite fold_assign_header_proto|].
  split; [exact Hassoc|].
  intros k Hk Hin. rewrite Hassoc by exact Hk.
  destruct (@assoc_In jsstring k (rev hs)) as (v & Hv & Hin').
  { rewrite map_rev. now apply -> in_rev. }
  exists v. split; [exact Hv|]. now apply in_rev.
Qed.

Lemma collect_headers_last_value_wins_witness :
  assoc (lit "set-cookie") (collect_headers repeated_headers) = Some (lit "b=2") /\
  (exists v, assoc (lit "content-type") (collect_headers repeated_headers)
             = Some v) /\
  assoc (lit "__proto__") (collect_headers polluting_headers) = None /\
  length (collect_headers polluting_headers) = 1%nat.
Proof.
  destruct (collect_headers_last_value_wins repeated_headers)
    as (_ & _ & Hlast & Hall).
  destruct (collect_headers_last_value_wins polluting_headers)
    as (_ & Hproto & _ & _).
  split; [rewrite Hlast; [reflexivity|discriminate]|].
  split.
  - destruct (Hall (lit "content-type")) as (v & Hv & _);
      [discriminate|cbn; auto|].
    exists v. exact Hv.
  - split; [exact Hproto|reflexivity].
Defined.


(** ** The metrics route composed with the prober *)









(** X16.  Neither variant of the metrics route ever raises, whatever the
    request holds and whatever [measurePageMetrics] does (return or
    throw): it always answers, with status 200, 400 or 500. *)
Theorem metrics_route_always_answers (w : World)
    (measure : JsValue -> M MetricsResult) (request : NextRequest) (s : State) :
  (exists resp s',
     SrcApiMetricsRoute.POST w measure request s = (Ok resp, s') /\
     (http_status resp = 200 \/ http_status resp = 400 \/ http_status resp = 500))
  /\
  (exists resp s',
     Part000.POST w measure request s = (Ok resp, s') /\
     (http_status resp = 200 \/ http_status resp = 400 \/ http_status resp = 500)).
Proof. exact (metrics_POST_total w measure request s). Qed.


(** ** The revalidation route: rejections and platform failures *)

(** X17.  A body without [slug] (or with a falsy one: [null], [0], [false],
    the empty string) is rejected with status 400 before anything
    happens: no path is revalidated and nothing is logged. *)
Theorem revalidate_rejects_missing_slug (w : World) (request : NextRequest)
    (body slug : JsValue) (s : State) :
  request_json request = Ok body ->
  get_prop body "slug" = Ok slug ->
  truthy slug = false ->
  Part001.POST w request s = (Ok Part001.missing_slug_response, s) /\
  http_status Part001.missing_slug_response = 400 /\
  get_prop (http_body Part001.missing_slug_response) "error"
  = Ok (JString (lit "Missing required field: slug")).
Proof.
  intros Hbody Hslug Hfalsy.
  rewrite (revalidate_POST_run w request s Hbody Hslug).
  unfold try_catch. rewrite Hfalsy. repeat split.
Qed.

Lemma revalidate_rejects_missing_slug_witness :
  Part001.POST world_down
    (request_of (JObject [(lit "secret", JString (lit "s3cr3t"))])) init_state
  = (Ok Part001.missing_slug_response, init_state) /\
  Part001.POST world_down
    (request_of (JObject [(lit "slug", JString [])])) init_state
  = (Ok Part001.missing_slug_response, init_state).
Proof.
  split.
  - exact (proj1 (@revalidate_rejects_missing_slug world_down
                    (request_of (JObject [(lit "secret", JString (lit "s3cr3t"))]))
                    (JObject [(lit "secret", JString (lit "s3cr3t"))])
                    JUndefined init_state eq_refl eq_refl eq_refl)).
  - exact (proj1 (@revalidate_rejects_missing_slug world_down
                    (request_of (JObject [(lit "slug", JString [])]))
                    (JObject [(lit "slug", JString [])])
                    (JString []) init_state eq_refl eq_refl eq_refl)).
Defined.

(** X18.  For a non-empty string [slug]: when the platform refuses an
    invalidation the route answers status 500 with the platform's message
    and invalidates nothing further: if the first [revalidatePath] throws,
    the on-demand path is never asked for; if the second throws, the first
    path has already been invalidated and stays so. *)
Theorem revalidate_platform_failure (w : World) (request : NextRequest)
    (body : JsValue) (slug : jsstring) (s : State) (e : Thrown) :
  request_json request = Ok body ->
  get_prop body "slug" = Ok (JString slug) ->
  slug <> [] ->
  (revalidatePath_outcome w (lit "/blog/isr/" ++ slug) = Some e ->
   exists s',
     Part001.POST w request s = (Ok (Part001.failure_response e), s') /\
     revalidated s' = revalidated s ++ [lit "/blog/isr/" ++ slug]) /\
  (revalidatePath_outcome w (lit "/blog/isr/" ++ slug) = None ->
   revalidatePath_outcome w (lit "/blog/isr-ondemand/" ++ slug) = Some e ->
   exists s',
     Part001.POST w request s = (Ok (Part001.failure_response e), s') /\
     revalidated s'
     = revalidated s ++ [lit "/blog/isr/" ++ slug;
                         lit "/blog/isr-ondemand/" ++ slug]) /\
  http_status (Part001.failure_response e) = 500 /\
  get_prop (http_body (Part001.failure_response e)) "message"
  = Ok (JString (error_message e)).
Proof.
  intros Hbody Hslug Hne.
  rewrite (revalidate_POST_run w request s Hbody Hslug).
  destruct slug as [|c slug]; [congruence|].
  unfold try_catch, Part001.isr_path, Part001.isr_ondemand_path, ToString.
  cbn [truthy negb has_conversion js_ToString].
  split; [|split; [|split; reflexivity]].
  - intros H1. run_monad. cbn in H1. rewrite H1. cbn.
    eexists. split; reflexivity.
  - intros H1 H2. run_monad. cbn in H1, H2. rewrite H1. cbn. rewrite H2. cbn.
    eexists. split; [reflexivity|]. cbn. now rewrite <- app_assoc.
Qed.

Lemma revalidate_platform_failure_witness :
  exists s',
    Part001.POST world_no_revalidation (request_of sample_body) init_state
    = (Ok (Part001.failure_response
             (ErrorObj (lit "static generation store missing"))), s') /\
    revalidated s' = [lit "/blog/isr/sample"].
Proof.
  assert (Hne : lit "sample" <> []) by discriminate.
  destruct (@revalidate_platform_failure world_no_revalidation
              (request_of sample_body) sample_body (lit "sample")
              init_state (ErrorObj (lit "static generation store missing"))
              eq_refl eq_refl Hne) as (Hfirst & _).
  exact (Hfirst eq_refl).
Defined.

(** X19.  For every non-empty string [slug], when the platform accepts
    both invalidations the route answers status 200, echoes the slug, and
    lists exactly the two paths [/blog/isr/] and [/blog/isr-ondemand/]
    followed by the slug; these two paths, in this order, are all it asked
    the platform to revalidate, and it logged two lines. *)
Theorem revalidate_any_slug (w : World) (request : NextRequest)
    (body : JsValue) (slug : jsstring) (s : State) :
  request_json request = Ok body ->
  get_prop body "slug" = Ok (JString slug) ->
  slug <> [] ->
  revalidatePath_outcome w (lit "/blog/isr/" ++ slug) = None ->
  revalidatePath_outcome w (lit "/blog/isr-ondemand/" ++ slug) = None ->
  exists resp s',
    Part001.POST w request s = (Ok resp, s') /\
    http_status resp = 200 /\
    get_prop (http_body resp) "slug" = Ok (JString slug) /\
    get_prop (http_body resp) "revalidated"
    = Ok (JArray [JString (lit "/blog/isr/" ++ slug);
                  JString (lit "/blog/isr-ondemand/" ++ slug)]) /\
    revalidated s'
    = revalidated s ++ [lit "/blog/isr/" ++ slug;
                        lit "/blog/isr-ondemand/" ++ slug] /\
    length (console s') = (length (console s) + 2)%nat /\
    requests s' = requests s.
Proof.
  intros Hbody Hslug Hne H1 H2.
  rewrite (revalidate_POST_run w request s Hbody Hslug).
  destruct slug as [|c slug]; [congruence|].
  unfold try_catch, Part001.isr_path, Part001.isr_ondemand_path, ToString.
  cbn [truthy negb has_conversion js_ToString].
  run_monad. cbn in H1, H2. rewrite H1. cbn. rewrite H2. cbn.
  do 2 eexists. split; [reflexivity|]. cbn.
  rewrite <- !app_assoc, !length_app. cbn.
  repeat split; try reflexivity; lia.
Qed.

Lemma revalidate_any_slug_witness :
  exists resp s',
    Part001.POST world_down
      (request_of (JObject [(lit "slug", JString (lit "hello-world"))]))
      init_state = (Ok resp, s') /\
    revalidated s'
    = [lit "/blog/isr/hello-world"; lit "/blog/isr-ondemand/hello-world"].
Proof.
  assert (Hne : lit "hello-world" <> []) by discriminate.
  destruct (@revalidate_any_slug world_down
              (request_of (JObject [(lit "slug", JString (lit "hello-world"))]))
              (JObject [(lit "slug", JString (lit "hello-world"))])
              (lit "hello-world") init_state
              eq_refl eq_refl Hne eq_refl eq_refl)
    as (resp & s' & Hrun & _ & _ & _ & Hrev & _).
  exists resp, s'. split; assumption.
Defined.

(** A slug that has no string conversion, such as the object
    [{toString: 1}], stops the route at its first template literal: the
    answer is 500 and no path is invalidated. *)
Lemma revalidate_unconvertible_slug (w : World) (request : NextRequest)
    (body slug : JsValue) (s : State) :
  request_json request = Ok body ->
  get_prop body "slug" = Ok slug ->
  truthy slug = true ->
  has_conversion slug = false ->
  exists e s',
    Part001.POST w request s = (Ok (Part001.failure_response e), s') /\
    revalidated s' = revalidated s.
Proof.
  intros Hbody Hslug Htruthy Hconv.
  rewrite (revalidate_POST_run w request s Hbody Hslug).
  unfold try_catch, ToString. rewrite Htruthy, Hconv. cbn [negb].
  rewrite bind_lift_Throw. do 2 eexists. split; reflexivity.
Qed.

(** X20.  The revalidation route never raises: unreadable JSON, a [null]
    body and a failing platform all end in an answer, and the status is
    always 200, 400 or 500. *)
Theorem revalidate_always_answers (w : World) (request : NextRequest) (s : State) :
  exists resp s',
    Part001.POST w request s = (Ok resp, s') /\
    (http_status resp = 200 \/ http_status resp = 400 \/ http_status resp = 500) /\
    (forall e, request_json request = Throw e ->
       resp = Part001.failure_response e) /\
    (request_json request = Ok JNull -> http_status resp = 500).
Proof.
  unfold Part001.POST, try_catch.
  destruct (request_json request) as [body|e0];
    rewrite ?bind_lift_Ok, ?bind_lift_Throw; cbv beta iota.
  2:{ do 2 eexists. split; [reflexivity|]. cbn.
      split; [auto|]. split; [intros e [= ->]; reflexivity|discriminate]. }
  destruct (get_prop body "slug") as [slug|e1] eqn:Hslug;
    rewrite ?bind_lift_Ok, ?bind_lift_Throw; cbv beta iota.
  2:{ do 2 eexists. split; [reflexivity|]. cbn.
      split; [auto|]. split; [discriminate|reflexivity]. }
  destruct (get_prop_Ok_any body "slug" "secret" Hslug) as (secret & ->).
  rewrite bind_lift_Ok. cbv beta iota.
  assert (Hnotnull : body <> JNull) by (intros ->; discriminate).
  destruct (truthy slug); cbn [negb].
  2:{ do 2 eexists. split; [reflexivity|]. cbn.
      split; [auto|]. split; [discriminate|]. intros [= ->]. congruence. }
  unfold ToString. destruct (has_conversion slug).
  2:{ rewrite bind_lift_Throw. do 2 eexists. split; [reflexivity|]. cbn.
      split; [auto|]. split; [discriminate|]. intros [= ->]. congruence. }
  run_monad.
  destruct (revalidatePath_outcome w _); cbn.
  { do 2 eexists. split; [reflexivity|]. cbn.
    split; [auto|]. split; [discriminate|]. intros [= ->]. congruence. }
  destruct (revalidatePath_outcome w _); cbn;
    (do 2 eexists; split; [reflexivity|]; cbn;
     split; [auto|]; split; [discriminate|]; intros [= ->]; congruence).
Qed.


(** ** Render timestamps *)

Lemma replace_first_at (pattern replacement : code_unit) (d t : jsstring) :
  ~ In pattern d ->
  replace_first pattern replacement (d ++ pattern :: t) = d ++ replacement :: t.
Proof.
  induction d as [|c r IH]; cbn [app replace_first]; intros Hnotin.
  - now rewrite N.eqb_refl.
  - destruct (N.eqb_spec c pattern) as [->|Hne].
    + exfalso. apply Hnotin. now left.
    + f_equal. apply IH. intros Hin. apply Hnotin. now right.
Qed.

(** X21.  [getServerTimestamp] reads the clock once, never raises, and
    returns at most 19 code units.  When the ISO rendering of the clock
    is a date of ten code units, the letter [T] and a time of at least
    eight, the result is that date, a space, and the first eight code
    units of the time: 19 code units, without fraction and zone. *)
Theorem getServerTimestamp_shape (w : World) (s : State) :
  exists stamp s',
    getServerTimestamp w s = (Ok stamp, s') /\
    ticks s' = S (ticks s) /\
    (length stamp <= 19)%nat /\
    (forall d t,
        toISOString w (clock w (ticks s)) = d ++ letter_T :: t ->
        ~ In letter_T d ->
        length d = 10%nat ->
        (8 <= length t)%nat ->
        stamp = d ++ space :: firstn 8 t /\ length stamp = 19%nat).
Proof.
  unfold getServerTimestamp, formatTimestamp, bind, ret, Date_now.
  cbv beta iota.
  do 2 eexists. split; [reflexivity|]. split; [reflexivity|].
  unfold format_iso, substring0.
  split; [apply firstn_le_length|].
  intros d t Hiso Hnotin Hd Ht.
  rewrite Hiso, (@replace_first_at letter_T space d t Hnotin).
  assert (Hcut : firstn 19 (d ++ space :: t) = d ++ space :: firstn 8 t).
  { rewrite firstn_app, Hd. rewrite firstn_all2 by lia.
    change (19 - 10)%nat with 9%nat. reflexivity. }
  rewrite Hcut. split; [reflexivity|].
  rewrite length_app. cbn [length]. rewrite length_firstn. lia.
Qed.

Lemma getServerTimestamp_shape_witness :
  exists s',
    getServerTimestamp (world_iso []) init_state
    = (Ok (lit "2026-11-03 10:15:30"), s').
Proof.
  destruct (getServerTimestamp_shape (world_iso []) init_state)
    as (stamp & s' & Hrun & _ & _ & Hshape).
  exists s'. rewrite Hrun. f_equal. f_equal.
  destruct (Hshape (lit "2026-11-03") (lit "10:15:30.123Z") eq_refl) as [-> _].
  - cbn. intros H. repeat (destruct H as [H|H]; [discriminate|]). exact H.
  - reflexivity.
  - cbn. lia.
  - reflexivity.
Defined.


(** ** The server-rendered pages *)

Lemma generateStaticParams_run (env : Env) (w : World) (tag : string) (s : State) :
  exists s1 slugs s',
    Directus.getAllSlugs env w s1 = (Ok slugs, s') /\
    requests s1 = requests s /\
    generateStaticParams_tagged env w tag s = (Ok (map param_of slugs), s').
Proof.
  unfold generateStaticParams_tagged, bind at 1, console_log, console_write.
  cbv beta iota.
  match goal with
  | |- context [bind (Directus.getAllSlugs env w) _ ?st] => set (s1 := st)
  end.
  destruct (getAllSlugs_run env w s1) as (s' & Hrun).
  exists s1. do 2 eexists. split; [exact Hrun|]. split; [reflexivity|].
  unfold bind. rewrite Hrun. reflexivity.
Qed.

(** X22.  The three [generateStaticParams] (SSG, ISR, on-demand ISR) never
    raise and send one request.  They return one [{ slug }] object per item
    of a successful CMS answer, in the CMS's order; when the CMS cannot be
    reached or answers with an error status they return no parameters at
    all, so the build pre-renders no post. *)
Theorem generateStaticParams_follow_cms (env : Env) (w : World) (tag : string)
    (s : State) :
  exists params s',
    generateStaticParams_tagged env w tag s = (Ok params, s') /\
    requests s' = requests s ++ [Directus.getAllSlugs_request env] /\
    (forall resp body posts,
        network w (Directus.getAllSlugs_request env) = Ok resp ->
        resp_ok resp = true ->
        resp_json resp = Ok (JObject body) ->
        assoc (lit "data") body = Some (JArray posts) ->
        forallb (fun p => negb (is_nullish p)) posts = true ->
        params = map (fun p => param_of (slug_of p)) posts) /\
    (forall e,
        network w (Directus.getAllSlugs_request env) = Throw e -> params = []) /\
    (forall resp,
        network w (Directus.getAllSlugs_request env) = Ok resp ->
        resp_ok resp = false -> params = []).
Proof.
  destruct (generateStaticParams_run env w tag s)
    as (s1 & slugs & s' & Hslugs & Hreq & Hrun).
  exists (map param_of slugs), s'. split; [exact Hrun|].
  pose proof (getAllSlugs_requests env w s1) as Htrace.
  rewrite Hslugs in Htrace. cbn [snd] in Htrace. rewrite Hreq in Htrace.
  split; [exact Htrace|].
  destruct (getAllSlugs_run env w s1) as (s2 & Hrun2).
  rewrite Hslugs in Hrun2. injection Hrun2 as Hval _.
  split; [|split].
  - intros resp body posts Hnet Hok Hjson Hdata Hposts.
    rewrite Hval, Hnet, Hok, Hjson. unfold get_prop. cbv beta iota.
    rewrite Hdata. cbn [Directus.optional_map_slug].
    rewrite (map_slug_non_nullish _ Hposts). now rewrite map_map.
  - intros e Hnet. now rewrite Hval, Hnet.
  - intros resp Hnet Hok. now rewrite Hval, Hnet, Hok.
Qed.

Lemma generateStaticParams_follow_cms_witness :
  (exists s',
     SsgPage.generateStaticParams no_env
       (world_cms [post_of_slug (lit "hello-world"); post_of_slug (lit "sample")])
       init_state
     = (Ok [param_of (JString (lit "hello-world"));
            param_of (JString (lit "sample"))], s')) /\
  (exists s',
     IsrPage.generateStaticParams no_env world_down init_state = (Ok [], s')).
Proof.
  split.
  - destruct (generateStaticParams_follow_cms no_env
                (world_cms [post_of_slug (lit "hello-world");
                            post_of_slug (lit "sample")]) "SSG" init_state)
      as (params & s' & Hrun & _ & Hok & _).
    exists s'. unfold SsgPage.generateStaticParams. rewrite Hrun.
    f_equal. f_equal.
    exact (Hok _ _ _ eq_refl eq_refl eq_refl eq_refl eq_refl).
  - destruct (generateStaticParams_follow_cms no_env world_down "ISR-Time"
                init_state) as (params & s' & Hrun & _ & _ & Hdown & _).
    exists s'. unfold IsrPage.generateStaticParams. rewrite Hrun.
    f_equal. f_equal. exact (Hdown _ eq_refl).
Defined.

Lemma getPost_run_value (env : Env) (w : World) (slug : jsstring)
    (opts : option CacheOptions) (s : State) :
  exists s',
    Directus.getPost env w slug opts s = (Ok (getPost_value env w slug opts), s') /\
    requests s' = requests s ++ [Directus.getPost_request env slug opts].
Proof.
  destruct (getPost_run env w slug opts s) as (s' & Hrun).
  exists s'. split; [exact Hrun|].
  pose proof (getPost_requests env w slug opts s) as Htrace.
  now rewrite Hrun in Htrace.
Qed.

Lemma render_post_run (env : Env) (w : World) (log_line : jsstring)
    (directive : CacheOptions) (slug : jsstring) (s : State) :
  exists s',
    requests s' = requests s ++ [Directus.getPost_request env slug (Some directive)] /\
    render_post env w log_line directive slug s
    = (if truthy (getPost_value env w slug (Some directive))
       then Ok {| view_post := getPost_value env w slug (Some directive);
                  view_renderTime :=
                    format_iso (toISOString w (clock w (ticks s))) |}
       else Throw NEXT_NOT_FOUND, s').
Proof.
  unfold render_post, getServerTimestamp, formatTimestamp.
  unfold bind at 1 2 3, ret at 1, Date_now, console_log, console_write.
  cbv beta iota.
  match goal with
  | |- context [bind (Directus.getPost env w slug (Some directive)) _ ?st] =>
      set (s1 := st)
  end.
  destruct (getPost_run_value env w slug (Some directive) s1)
    as (s' & Hrun & Hreq).
  exists s'. split; [exact Hreq|].
  unfold bind at 1. rewrite Hrun.
  destruct (truthy _); reflexivity.
Qed.

(** X23.  Each of the four server-rendered pages (SSR, SSG, ISR, on-demand
    ISR) either gets a truthy post and renders it with a timestamp taken
    before the fetch, or calls [notFound()]; it never renders without a
    post and raises nothing else.  It calls [notFound()] not only when
    the CMS has no such post but also whenever the CMS cannot be reached
    or answers with an error status. *)
Theorem pages_render_or_not_found (env : Env) (w : World) (log_line : jsstring)
    (directive : CacheOptions) (slug : jsstring) (s : State) :
  exists s',
    requests s' = requests s ++ [Directus.getPost_request env slug (Some directive)] /\
    (render_post env w log_line directive slug s = (Throw NEXT_NOT_FOUND, s') \/
     exists view,
       render_post env w log_line directive slug s = (Ok view, s') /\
       truthy (view_post view) = true /\
       view_renderTime view = format_iso (toISOString w (clock w (ticks s)))) /\
    (forall e,
        network w (Directus.getPost_request env slug (Some directive)) = Throw e ->
        render_post env w log_line directive slug s = (Throw NEXT_NOT_FOUND, s')) /\
    (forall resp,
        network w (Directus.getPost_request env slug (Some directive)) = Ok resp ->
        resp_ok resp = false ->
        render_post env w log_line directive slug s = (Throw NEXT_NOT_FOUND, s')) /\
    (forall resp body,
        network w (Directus.getPost_request env slug (Some directive)) = Ok resp ->
        resp_ok resp = true ->
        resp_json resp = Ok (JObject body) ->
        assoc (lit "data") body = Some (JArray []) ->
        render_post env w log_line directive slug s = (Throw NEXT_NOT_FOUND, s')).
Proof.
  destruct (render_post_run env w log_line directive slug s)
    as (s' & Hreq & Hrun).
  exists s'. split; [exact Hreq|].
  split; [|split; [|split]].
  - rewrite Hrun.
    destruct (truthy (getPost_value env w slug (Some directive))) eqn:Ht;
      [right|now left].
    eexists. split; [reflexivity|]. split; [exact Ht|reflexivity].
  - intros e Hnet. rewrite Hrun. unfold getPost_value. now rewrite Hnet.
  - intros resp Hnet Hok. rewrite Hrun. unfold getPost_value.
    now rewrite Hnet, Hok.
  - intros resp body Hnet Hok Hjson Hdata.
    rewrite Hrun. unfold getPost_value. rewrite Hnet, Hok, Hjson.
    unfold get_prop. cbv beta iota. rewrite Hdata. reflexivity.
Qed.

Lemma pages_render_or_not_found_witness :
  exists s',
    SSRBlogPost no_env world_down (lit "hello-world") init_state
    = (Throw NEXT_NOT_FOUND, s').
Proof.
  destruct (pages_render_or_not_found no_env world_down
              (lit "[SSR] Rendering blog post: " ++ lit "hello-world")
              (CacheString cache_no_store) (lit "hello-world") init_state)
    as (s' & _ & _ & Hdown & _).
  exists s'. exact (Hdown _ eq_refl).
Defined.

(** X24.  The cache directive of each page reaches the network unchanged:
    the SSR page's request has cache mode [no-store], the SSG page's
    [force-cache]; the ISR page's request has [next.revalidate] 60 and the
    on-demand page's [next.revalidate] [false], both with the tags [blog]
    and [blog-<slug>] and no cache mode. *)
Theorem pages_cache_directives (env : Env) (w : World) (slug : jsstring)
    (s : State) :
  (exists rq,
     requests (snd (SSRBlogPost env w slug s)) = requests s ++ [rq] /\
     req_cache rq = Some cache_no_store /\ req_next rq = None) /\
  (exists rq,
     requests (snd (SSGBlogPost env w slug s)) = requests s ++ [rq] /\
     req_cache rq = Some cache_force_cache /\ req_next rq = None) /\
  (exists rq,
     requests (snd (ISRTimeBlogPost env w slug s)) = requests s ++ [rq] /\
     req_cache rq = None /\
     req_next rq = Some {| revalidate := Some (revalidate_seconds 60);
                           tags := Some [lit "blog"; lit "blog-" ++ slug] |}) /\
  (exists rq,
     requests (snd (ISROnDemandBlogPost env w slug s)) = requests s ++ [rq] /\
     req_cache rq = None /\
     req_next rq = Some {| revalidate := Some revalidate_false;
                           tags := Some [lit "blog"; lit "blog-" ++ slug] |}).
Proof.
  assert (H : forall log_line directive,
             requests (snd (render_post env w log_line directive slug s))
             = requests s ++ [Directus.getPost_request env slug (Some directive)]).
  { intros log_line directive.
    destruct (render_post_run env w log_line directive slug s)
      as (s' & Hreq & Hrun).
    now rewrite Hrun. }
  unfold SSRBlogPost, SSGBlogPost, ISRTimeBlogPost, ISROnDemandBlogPost.
  repeat split; eexists; (split; [apply H|]); split; reflexivity.
Qed.

(** ** The client-rendered page *)

Lemma fetchPost_unconfigured (cfg : option jsstring) (w : World)
    (slug : jsstring) (st : CsrState) (s : State) :
  cfg = None \/ cfg = Some [] ->
  exists s',
    requests s' = requests s /\
    fetchPost cfg w slug st s
    = (Ok (csr_failed st (csr_fetchTime st)
             (lit "NEXT_PUBLIC_DIRECTUS_URL is not configured")), s').
Proof.
  intros [->| ->]; unfold fetchPost, csr_on_error; run_monad;
    eexists; (split; [|reflexivity]); reflexivity.
Qed.

Lemma fetchPost_configured (w : World) (c : code_unit) (base slug : jsstring)
    (st : CsrState) (s : State) :
  exists s',
    requests s' = requests s ++ [csr_request (c :: base) slug] /\
    fetchPost (Some (c :: base)) w slug st s
    = (Ok (csr_final w (c :: base) slug st
             (clock w (S (ticks s)) - clock w (ticks s))), s').
Proof.
  unfold fetchPost, csr_on_error, csr_final, csr_failed. run_monad.
  destruct (network w _) as [resp|e]; cbn; [|eexists; (split; [|reflexivity]); reflexivity].
  destruct (resp_ok resp); cbn; [|eexists; (split; [|reflexivity]); reflexivity].
  destruct (resp_json resp) as [data|e]; cbn; [|eexists; (split; [|reflexivity]); reflexivity].
  destruct (get_prop data "data") as [d|e]; cbn; [|eexists; (split; [|reflexivity]); reflexivity].
  destruct (truthy (Directus.optional_index0 d)); cbn;
    eexists; (split; [|reflexivity]); reflexivity.
Qed.

Lemma csr_final_cases (w : World) (base slug : jsstring) (st : CsrState)
    (elapsed : Z) :
  csr_loading (csr_final w base slug st elapsed) = false /\
  ((csr_error (csr_final w base slug st elapsed) = None /\
    truthy (csr_post (csr_final w base slug st elapsed)) = true) \/
   (exists msg,
       csr_error (csr_final w base slug st elapsed) = Some msg /\
       csr_post (csr_final w base slug st elapsed) = csr_post st)).
Proof.
  unfold csr_final, csr_failed.
  destruct (network w _) as [resp|e]; cbn; [|eauto].
  destruct (resp_ok resp); cbn; [|eauto].
  destruct (resp_json resp) as [data|e]; cbn; [|eauto].
  destruct (get_prop data "data") as [d|e]; cbn; [|eauto].
  destruct (truthy (Directus.optional_index0 d)) eqn:Ht; cbn; eauto.
Qed.

(** X25.  [fetchPost] never raises and always ends with [loading] false.
    Afterwards either there is no error and [post] is the truthy first
    item of the answer, or there is an error message and [post] is what
    it was before.  Without [NEXT_PUBLIC_DIRECTUS_URL] (unset or empty)
    no request is sent at all; an error status is reported as
    [Failed to fetch: <statusText>] and an empty answer as
    [Post not found]. *)
Theorem fetchPost_outcome (cfg : option jsstring) (w : World) (slug : jsstring)
    (st : CsrState) (s : State) :
  exists st' s',
    fetchPost cfg w slug st s = (Ok st', s') /\
    csr_loading st' = false /\
    ((csr_error st' = None /\ truthy (csr_post st') = true) \/
     (exists msg, csr_error st' = Some msg /\ csr_post st' = csr_post st)) /\
    (cfg = None \/ cfg = Some [] ->
       requests s' = requests s /\
       csr_error st' = Some (lit "NEXT_PUBLIC_DIRECTUS_URL is not configured") /\
       csr_fetchTime st' = csr_fetchTime st) /\
    (forall c base resp,
        cfg = Some (c :: base) ->
        network w (csr_request (c :: base) slug) = Ok resp ->
        requests s' = requests s ++ [csr_request (c :: base) slug] /\
        csr_fetchTime st' = clock w (S (ticks s)) - clock w (ticks s) /\
        (resp_ok resp = false ->
           csr_error st' = Some (lit "Failed to fetch: " ++ resp_statusText resp)) /\
        (forall body,
           resp_ok resp = true ->
           resp_json resp = Ok (JObject body) ->
           assoc (lit "data") body = Some (JArray []) ->
           csr_error st' = Some (lit "Post not found")) /\
        (forall body item rest,
           resp_ok resp = true ->
           resp_json resp = Ok (JObject body) ->
           assoc (lit "data") body = Some (JArray (JObject item :: rest)) ->
           csr_error st' = None /\ csr_post st' = JObject item)).
Proof.
  destruct cfg as [[|c base]|].
  - destruct (@fetchPost_unconfigured (Some []) w slug st s (or_intror eq_refl))
      as (s' & Hreq & Hrun).
    do 2 eexists. split; [exact Hrun|]. cbn.
    split; [reflexivity|]. split; [right; eauto|].
    split; [auto|]. intros; discriminate.
  - destruct (fetchPost_configured w c base slug st s) as (s' & Hreq & Hrun).
    do 2 eexists. split; [exact Hrun|].
    destruct (csr_final_cases w (c :: base) slug st
                (clock w (S (ticks s)) - clock w (ticks s))) as [Hload Hcases].
    split; [exact Hload|]. split; [exact Hcases|].
    split; [intros [?|?]; discriminate|].
    intros c0 base0 resp [= <- <-] Hnet.
    split; [exact Hreq|].
    unfold csr_final, csr_failed. rewrite Hnet.
    split; [|split; [|split]].
    + destruct (resp_ok resp); [|reflexivity].
      destruct (resp_json resp) as [data|e]; [|reflexivity].
      destruct (get_prop data "data") as [d|e]; [|reflexivity].
      destruct (truthy (Directus.optional_index0 d)); reflexivity.
    + intros ->. reflexivity.
    + intros body -> -> Hdata. unfold get_prop. cbv beta iota.
      rewrite Hdata. reflexivity.
    + intros body item rest -> -> Hdata. unfold get_prop. cbv beta iota.
      rewrite Hdata. split; reflexivity.
  - destruct (@fetchPost_unconfigured None w slug st s (or_introl eq_refl))
      as (s' & Hreq & Hrun).
    do 2 eexists. split; [exact Hrun|]. cbn.
    split; [reflexivity|]. split; [right; eauto|].
    split; [auto|]. intros; discriminate.
Qed.

Lemma fetchPost_outcome_witness :
  (exists st' s',
     fetchPost None (world_cms [hello_item]) (lit "hello-world") csr_initial
       init_state = (Ok st', s') /\
     requests s' = [] /\
     csr_error st' = Some (lit "NEXT_PUBLIC_DIRECTUS_URL is not configured")) /\
  (exists st' s',
     fetchPost public_cms (world_cms [hello_item]) (lit "hello-world")
       csr_initial init_state = (Ok st', s') /\
     csr_error st' = None /\ csr_post st' = hello_item /\
     csr_loading st' = false).
Proof.
  split.
  - destruct (fetchPost_outcome None (world_cms [hello_item])
                (lit "hello-world") csr_initial init_state)
      as (st' & s' & Hrun & _ & _ & Hnone & _).
    exists st', s'. split; [exact Hrun|].
    destruct (Hnone (or_introl eq_refl)) as (Hreq & Herr & _).
    split; assumption.
  - destruct (fetchPost_outcome public_cms (world_cms [hello_item])
                (lit "hello-world") csr_initial init_state)
      as (st' & s' & Hrun & Hload & _ & _ & Hsome).
    exists st', s'. split; [exact Hrun|].
    destruct (Hsome _ _ _ eq_refl eq_refl) as (_ & _ & _ & _ & Hitem).
    destruct (Hitem _ _ _ eq_refl eq_refl eq_refl) as [Herr Hpost].
    repeat split; assumption.
Defined.

(** X26.  The client-rendered page and the server helper do not ask the
    CMS the same question: for the same base address and every pair of
    slugs the two request URLs differ, the page querying the collection
    [blog_posts] and [getPost] the collection [blogs]. *)
Theorem csr_and_server_urls_differ (env : Env) (slug slug' : jsstring) :
  req_url (csr_request (Directus.DIRECTUS_URL env) slug)
  <> Directus.getPost_url env slug' /\
  req_url (csr_request (Directus.DIRECTUS_URL env) slug)
  = Directus.DIRECTUS_URL env ++ lit "/items/blog_posts?filter[slug][_eq]=" ++ slug
      ++ lit "&fields=slug,title,content,date_updated" /\
  Directus.getPost_url env slug'
  = Directus.DIRECTUS_URL env ++ lit "/items/blogs?filter[slug][_eq]=" ++ slug'
      ++ lit "&fields=slug,title,content,date_created,date_updated".
Proof.
  split; [|split; reflexivity].
  unfold csr_request, Directus.getPost_url. cbn [req_url].
  intros H. apply app_inv_head in H. cbn in H. discriminate H.
Qed.


(** ** The browser side *)

Lemma testSingleMode_run (api : ApiCall -> Result Response)
    (baseUrl slug mode : jsstring) (trace : list ClientEvent) :
  testSingleMode api baseUrl slug mode trace
  = (match request_metrics api (mode_url baseUrl slug mode) with
     | Ok data => (data, None)
     | Throw err => (JNull, Some (error_message err))
     end,
     trace ++ [Called (metrics_api_call (mode_url baseUrl slug mode))]).
Proof. reflexivity. Qed.

(** X27.  [testSingleMode] never raises and makes one POST to
    [/api/metrics] whose body holds [<baseUrl>/blog/<mode>/<slug>].  It
    never returns both a result and an error.  A successful answer is
    returned as the result; from an unsuccessful one the error is the
    answer's own [error] text when it has one and ['Failed to fetch
    metrics'] otherwise; when the call itself fails the error is that
    failure's message. *)
Theorem testSingleMode_outcome (api : ApiCall -> Result Response)
    (baseUrl slug mode : jsstring) (trace : list ClientEvent) :
  exists result error,
    testSingleMode api baseUrl slug mode trace
    = ((result, error),
       trace ++ [Called (metrics_api_call
                           (baseUrl ++ lit "/blog/" ++ mode ++ lit "/" ++ slug))]) /\
    (error = None \/ result = JNull) /\
    (forall resp data,
        api (metrics_api_call (mode_url baseUrl slug mode)) = Ok resp ->
        resp_ok resp = true -> resp_json resp = Ok data ->
        result = data /\ error = None) /\
    (forall resp body msg,
        api (metrics_api_call (mode_url baseUrl slug mode)) = Ok resp ->
        resp_ok resp = false -> resp_json resp = Ok (JObject body) ->
        assoc (lit "error") body = Some (JString msg) -> msg <> [] ->
        result = JNull /\ error = Some msg) /\
    (forall resp body,
        api (metrics_api_call (mode_url baseUrl slug mode)) = Ok resp ->
        resp_ok resp = false -> resp_json resp = Ok (JObject body) ->
        assoc (lit "error") body = None ->
        result = JNull /\ error = Some (lit "Failed to fetch metrics")) /\
    (forall e,
        api (metrics_api_call (mode_url baseUrl slug mode)) = Throw e ->
        result = JNull /\ error = Some (error_message e)).
Proof.
  rewrite testSingleMode_run.
  destruct (request_metrics api (mode_url baseUrl slug mode)) as [data|err] eqn:Hreq;
    do 2 eexists; (split; [reflexivity|]); (split; [auto|]);
    unfold request_metrics in Hreq.
  - split; [|split; [|split]].
    + intros resp d Hapi Hok Hjson. rewrite Hapi, Hjson, Hok in Hreq.
      cbn in Hreq. injection Hreq as <-. auto.
    + intros resp body msg Hapi Hok Hjson Herr Hmsg.
      rewrite Hapi, Hjson, Hok in Hreq. cbn [negb] in Hreq.
      destruct (get_prop (JObject body) "error"); discriminate.
    + intros resp body Hapi Hok Hjson Herr.
      rewrite Hapi, Hjson, Hok in Hreq. cbn [negb] in Hreq.
      destruct (get_prop (JObject body) "error"); discriminate.
    + intros e Hapi. rewrite Hapi in Hreq. discriminate.
  - split; [|split; [|split]].
    + intros resp d Hapi Hok Hjson. rewrite Hapi, Hjson, Hok in Hreq.
      discriminate.
    + intros resp body msg Hapi Hok Hjson Herr Hmsg.
      rewrite Hapi, Hjson, Hok in Hreq. cbn [negb] in Hreq.
      unfold get_prop in Hreq. rewrite Herr in Hreq.
      destruct msg as [|c m]; [congruence|]. cbn in Hreq.
      injection Hreq as <-. auto.
    + intros resp body Hapi Hok Hjson Herr.
      rewrite Hapi, Hjson, Hok in Hreq. cbn [negb] in Hreq.
      unfold get_prop in Hreq. rewrite Herr in Hreq. cbn in Hreq.
      injection Hreq as <-. auto.
    + intros e Hapi. rewrite Hapi in Hreq. injection Hreq as <-. auto.
Qed.

Lemma testSingleMode_outcome_witness :
  testSingleMode api_rejecting (lit "http://localhost:3000") (lit "hello-world")
    (lit "ssr") []
  = ((JNull, Some (lit "Invalid URL format")),
     [Called (metrics_api_call
                (lit "http://localhost:3000/blog/ssr/hello-world"))]).
Proof.
  destruct (testSingleMode_outcome api_rejecting (lit "http://localhost:3000")
              (lit "hello-world") (lit "ssr") [])
    as (result & error & Hrun & _ & _ & Hmsg & _).
  rewrite Hrun.
  destruct (Hmsg _ _ (lit "Invalid URL format") eq_refl eq_refl eq_refl eq_refl)
    as [-> ->]; [discriminate|reflexivity].
Defined.

Lemma map_at_length_app {A} (f : A -> A) (done : list A) (x : A) (rest : list A) :
  map_at (length done) f (done ++ x :: rest) = done ++ f x :: rest.
Proof.
  induction done as [|d r IH]; cbn [length app map_at]; [reflexivity|].
  now rewrite IH.
Qed.

Lemma test_each_spec (api : ApiCall -> Result Response) (baseUrl slug : jsstring)
    (todo : list ModeResult) :
  forall (done : list ModeResult) (trace : list ClientEvent),
    test_each api baseUrl slug (length done) todo
      (done ++ map (fun m => {| mr_mode := mr_mode m; mr_label := mr_label m;
                                mr_color := mr_color m; mr_result := JNull;
                                mr_error := None; mr_loading := true |}) todo)
      trace
    = (done ++ map (finished_mode api baseUrl slug) todo,
       trace ++ flat_map (mode_events baseUrl slug) todo).
Proof.
  induction todo as [|m rest IH]; intros done trace; cbn [test_each map flat_map].
  - now rewrite !app_nil_r.
  - rewrite testSingleMode_run.
    assert (Hlen : S (length done)
                   = length (done ++ [finished_mode api baseUrl slug m])).
    { rewrite length_app. cbn. lia. }
    assert (Hsplit : forall x r,
               done ++ x :: r = (done ++ [x]) ++ r :> list ModeResult).
    { intros x r. now rewrite <- app_assoc. }
    assert (Hfin : finished_mode api baseUrl slug m
                   = match request_metrics api (mode_url baseUrl slug (mr_mode m)) with
                     | Ok data =>
                         {| mr_mode := mr_mode m; mr_label := mr_label m;
                            mr_color := mr_color m; mr_result := data;
                            mr_error := None; mr_loading := false |}
                     | Throw err =>
                         {| mr_mode := mr_mode m; mr_label := mr_label m;
                            mr_color := mr_color m; mr_result := JNull;
                            mr_error := Some (error_message err);
                            mr_loading := false |}
                     end).
    { unfold finished_mode. now destruct (request_metrics api _). }
    destruct (request_metrics api (mode_url baseUrl slug (mr_mode m)))
      as [data|err]; cbv beta iota zeta;
      rewrite map_at_length_app; cbn [mr_mode mr_label mr_color];
      rewrite <- Hfin, Hlen;
      match goal with
      | |- test_each _ _ _ _ _ (done ++ ?x :: ?r) _ = _ => rewrite (Hsplit x r)
      end;
      rewrite IH; unfold mode_events at 2; cbn [app];
      now rewrite <- !app_assoc.
Qed.

(** X28.  [testAllModes] probes the modes one after the other in the
    order of the list, pausing 100 ms after each probe, the last one
    included.  When it is done [testing] is false and the list has the
    same modes, labels and colours in the same order; no entry is loading
    any more, each holds the outcome of its own probe, and none holds
    both a result and an error. *)
Theorem testAllModes_sequential (api : ApiCall -> Result Response)
    (slug : jsstring) (st : SlugPageState) (trace : list ClientEvent) :
  exists final,
    testAllModes api slug st trace
    = ({| sp_baseUrl := sp_baseUrl st; sp_testing := false; sp_modes := final |},
       trace ++ flat_map (mode_events (sp_baseUrl st) slug) (sp_modes st)) /\
    final = map (finished_mode api (sp_baseUrl st) slug) (sp_modes st) /\
    map mr_mode final = map mr_mode (sp_modes st) /\
    map mr_label final = map mr_label (sp_modes st) /\
    map mr_color final = map mr_color (sp_modes st) /\
    Forall (fun m => mr_loading m = false /\
                     (mr_error m = None \/ mr_result m = JNull)) final.
Proof.
  exists (map (finished_mode api (sp_baseUrl st) slug) (sp_modes st)).
  split.
  - unfold testAllModes.
    pose proof (test_each_spec api (sp_baseUrl st) slug (sp_modes st) [] trace)
      as H.
    cbn [length app] in H. rewrite H. reflexivity.
  - split; [reflexivity|].
    rewrite !map_map. cbn [finished_mode mr_mode mr_label mr_color].
    repeat (split; [reflexivity|]).
    apply Forall_forall. intros m [m0 [<- _]]%in_map_iff.
    cbn [finished_mode mr_loading mr_error mr_result].
    split; [reflexivity|].
    destruct (request_metrics api _); auto.
Qed.


Lemma fold_pick_min (l : list TtfbEntry) :
  forall x,
    let r := fold_left (fun a b => if te_ttfb a <? te_ttfb b then a else b) l x in
    In r (x :: l) /\
    (forall e, In e (x :: l) -> te_ttfb r <= te_ttfb e) /\
    fold_left Z.min (map te_ttfb l) (te_ttfb x) = te_ttfb r.
Proof.
  induction l as [|b l IH]; intros x; cbn [fold_left map].
  - cbn. split; [now left|]. split; [|reflexivity].
    intros e [<-|[]]. lia.
  - specialize (IH (if te_ttfb x <? te_ttfb b then x else b)).
    cbv zeta in IH. destruct IH as (Hin & Hmin & Hfold).
    assert (Hpick : te_ttfb (if te_ttfb x <? te_ttfb b then x else b)
                    = Z.min (te_ttfb x) (te_ttfb b)).
    { destruct (Z.ltb_spec (te_ttfb x) (te_ttfb b)); lia. }
    cbv zeta. split; [|split].
    + destruct Hin as [Hin|Hin]; [|right; now right].
      rewrite <- Hin. destruct (te_ttfb x <? te_ttfb b); [now left|right; now left].
    + intros e [<-|[<-|He]].
      * etransitivity; [apply Hmin; now left|]. rewrite Hpick. lia.
      * etransitivity; [apply Hmin; now left|]. rewrite Hpick. lia.
      * apply Hmin. now right.
    + rewrite <- Hpick. exact Hfold.
Qed.

Lemma fold_pick_max (l : list TtfbEntry) :
  forall x,
    let r := fold_left (fun a b => if te_ttfb a >? te_ttfb b then a else b) l x in
    In r (x :: l) /\
    (forall e, In e (x :: l) -> te_ttfb e <= te_ttfb r).
Proof.
  induction l as [|b l IH]; intros x; cbn [fold_left].
  - cbn. split; [now left|]. intros e [<-|[]]. lia.
  - specialize (IH (if te_ttfb x >? te_ttfb b then x else b)).
    cbv zeta in IH. destruct IH as (Hin & Hmax).
    assert (Hpick : te_ttfb (if te_ttfb x >? te_ttfb b then x else b)
                    = Z.max (te_ttfb x) (te_ttfb b)).
    { rewrite Z.gtb_ltb. destruct (Z.ltb_spec (te_ttfb b) (te_ttfb x)); lia. }
    cbv zeta. split.
    + destruct Hin as [Hin|Hin]; [|right; now right].
      rewrite <- Hin. destruct (te_ttfb x >? te_ttfb b); [now left|right; now left].
    + intros e [<-|[<-|He]].
      * etransitivity; [|apply Hmax; now left]. rewrite Hpick. lia.
      * etransitivity; [|apply Hmax; now left]. rewrite Hpick. lia.
      * apply Hmax. now right.
Qed.

(** X29.  On a non-empty [ttfbs] the insights never fail: [fastest] and
    [slowest] are entries of the list, no entry has a smaller time than
    [fastest] or a larger one than [slowest], and the trophy test of the
    comparison table ([Math.min(...) === ttfb]) holds for exactly the
    entries whose time equals that of [fastest].  On an empty [ttfbs]
    both reductions throw. *)
Theorem fastest_and_slowest (ttfbs : list TtfbEntry) :
  (ttfbs <> [] ->
   exists f sl,
     fastest ttfbs = Ok f /\ slowest ttfbs = Ok sl /\
     In f ttfbs /\ In sl ttfbs /\
     (forall e, In e ttfbs -> te_ttfb f <= te_ttfb e <= te_ttfb sl) /\
     (forall e, In e ttfbs ->
        (isFastestTTFB (map te_ttfb ttfbs) (te_ttfb e) = true
         <-> te_ttfb e = te_ttfb f))) /\
  (ttfbs = [] ->
   (exists err, fastest ttfbs = Throw err) /\
   (exists err, slowest ttfbs = Throw err) /\
   (forall v, isFastestTTFB (map te_ttfb ttfbs) v = false)).
Proof.
  split.
  - destruct ttfbs as [|x l]; [congruence|]. intros _.
    destruct (fold_pick_min l x) as (Hin & Hmin & Hfold).
    destruct (fold_pick_max l x) as (Hin' & Hmax).
    cbv zeta in *.
    do 2 eexists. split; [reflexivity|]. split; [reflexivity|].
    split; [exact Hin|]. split; [exact Hin'|].
    split; [intros e He; split; [now apply Hmin|now apply Hmax]|].
    intros e He. unfold isFastestTTFB, Math_min. cbn [map].
    rewrite Hfold, Z.eqb_eq. split; congruence.
  - intros ->. cbn. eauto.
Qed.

Lemma fastest_and_slowest_witness :
  exists f sl,
    fastest three_ttfbs = Ok f /\ slowest three_ttfbs = Ok sl /\
    te_ttfb f = 8 /\ te_ttfb sl = 120 /\
    isFastestTTFB (map te_ttfb three_ttfbs) 8 = true.
Proof.
  destruct (fastest_and_slowest three_ttfbs) as [Hsome _].
  destruct (Hsome ltac:(discriminate)) as (f & sl & Hf & Hsl & _ & _ & _ & _).
  exists f, sl. split; [exact Hf|]. split; [exact Hsl|].
  injection Hf as <-. injection Hsl as <-. repeat split.
Defined.

(** X30.  [handleTest] with an empty URL sets the error
    ['Please enter a URL'] and does nothing else: no request is sent and
    [loading] and a result shown earlier stay as they are.  With a URL it
    sends one POST to [/api/metrics] carrying that URL and always ends
    with [loading] false; then either the server's successful answer is
    the result and there is no error, or there is an error message and no
    result; an unsuccessful answer's own [error] text is the message
    shown. *)
Theorem handleTest_outcome (api : ApiCall -> Result Response) (st : LabState)
    (trace : list ClientEvent) :
  (lab_url st = [] ->
   handleTest api st trace
   = ({| lab_url := []; lab_loading := lab_loading st;
         lab_result := lab_result st;
         lab_error := Some (lit "Please enter a URL") |}, trace)) /\
  (lab_url st <> [] ->
   exists st',
     handleTest api st trace
     = (st', trace ++ [Called (metrics_api_call (lab_url st))]) /\
     lab_url st' = lab_url st /\
     lab_loading st' = false /\
     ((lab_error st' = None /\
       exists resp,
         api (metrics_api_call (lab_url st)) = Ok resp /\
         resp_ok resp = true /\ resp_json resp = Ok (lab_result st')) \/
      (exists msg, lab_error st' = Some msg /\ lab_result st' = JNull)) /\
     (forall resp body msg,
         api (metrics_api_call (lab_url st)) = Ok resp ->
         resp_ok resp = false -> resp_json resp = Ok (JObject body) ->
         assoc (lit "error") body = Some (JString msg) -> msg <> [] ->
         lab_error st' = Some msg)).
Proof.
  unfold handleTest. split.
  - intros ->. reflexivity.
  - intros Hurl. destruct (lab_url st) as [|c u] eqn:Hu; [congruence|].
    cbn [str_truthy negb].
    destruct (request_metrics api (c :: u)) as [data|err] eqn:Hreq;
      eexists; (split; [reflexivity|]);
      cbn [lab_url lab_loading lab_error lab_result];
      (split; [reflexivity|]); (split; [reflexivity|]);
      unfold request_metrics in Hreq;
      destruct (api (metrics_api_call (c :: u))) as [resp|e0] eqn:Hapi;
      try discriminate;
      try (split; [right; eauto|intros; discriminate]).
    + destruct (resp_json resp) as [d|e1] eqn:Hjson; [|discriminate].
      destruct (resp_ok resp) eqn:Hok; cbn [negb] in Hreq.
      * injection Hreq as <-. split; [left; eauto|].
        intros resp0 body msg [= <-] Hok0. congruence.
      * destruct (get_prop d "error"); discriminate.
    + split; [right; eauto|].
      intros resp0 body msg [= <-] Hok Hjson Herr Hmsg.
      rewrite Hjson, Hok in Hreq. cbn [negb] in Hreq.
      unfold get_prop in Hreq. rewrite Herr in Hreq.
      destruct msg as [|c0 m]; [congruence|]. cbn in Hreq.
      injection Hreq as <-. reflexivity.
Qed.

Lemma handleTest_outcome_witness :
  handleTest api_rejecting
    {| lab_url := lit "not a url"; lab_loading := false;
       lab_result := JNull; lab_error := None |} []
  = ({| lab_url := lit "not a url"; lab_loading := false;
        lab_result := JNull; lab_error := Some (lit "Invalid URL format") |},
     [Called (metrics_api_call (lit "not a url"))]).
Proof.
  destruct (handleTest_outcome api_rejecting
              {| lab_url := lit "not a url"; lab_loading := false;
                 lab_result := JNull; lab_error := None |} []) as [_ Hsome].
  destruct (Hsome ltac:(discriminate))
    as (st' & Hrun & Hu & Hload & Hcases & Hmsg).
  rewrite Hrun. f_equal.
  specialize (Hmsg _ _ (lit "Invalid URL format") eq_refl eq_refl eq_refl eq_refl
                ltac:(discriminate)).
  destruct Hcases as [[Hnone _]|(msg & _ & Hres)]; [congruence|].
  destruct st' as [u l r e]. cbn in *. congruence.
Defined.


(** ** Concrete runs of the statements above *)

Lemma getPost_null_or_truthy_witness :
  exists s',
    Directus.getPost no_env (world_cms [JNumber 0]) (lit "hello-world") None
      init_state = (Ok JNull, s').
Proof.
  destruct (getPost_null_or_truthy no_env (world_cms [JNumber 0])
              (lit "hello-world") None init_state)
    as (v & s' & Hrun & _ & Hiff).
  exists s'. rewrite Hrun. f_equal. f_equal. apply Hiff.
  destruct (getPost_run no_env (world_cms [JNumber 0]) (lit "hello-world")
              None init_state) as (s2 & Hrun2).
  rewrite Hrun in Hrun2. now injection Hrun2 as ->.
Defined.

Lemma htmlPreview_of_normalised_witness :
  htmlPreview_of ragged_body = lit "Hello world" /\
  forall c, In c (htmlPreview_of ragged_body) -> is_whitespace c = true ->
            c = space.
Proof.
  split; [reflexivity|].
  exact (proj1 (htmlPreview_of_normalised ragged_body)).
Defined.

Lemma revalidate_always_answers_witness :
  exists resp s',
    Part001.POST world_down null_request init_state = (Ok resp, s') /\
    http_status resp = 500.
Proof.
  destruct (revalidate_always_answers world_down null_request init_state)
    as (resp & s' & Hrun & _ & _ & Hnull).
  exists resp, s'. split; [exact Hrun|]. exact (Hnull eq_refl).
Defined.
